(** * fgt-webhook-shaper: the webhook handler, the delayed-disable task and
      the inactivity watchdog of [app.py], embedded as functions on an
      explicit world state, with the threads interleaved by a schedule. *)

From Stdlib Require Import ZArith String Ascii List Bool Lia.
From stdpp Require Import base list strings.

#[local] Set Warnings "-register-all".
Local Open Scope string_scope.
Local Open Scope Z_scope.

(** ** Python values

    [request.get_json(silent=True)] hands the handler an arbitrary JSON
    value, or [None] when the body is absent or does not parse. *)

(** A Python float: a finite value [m * 2^e], an infinity or a NaN. *)
Inductive pyfloat :=
| FFinite (m e : Z)
| FInf (negative : bool)
| FNaN.

(** [JNull] is Python's [None]: the JSON literal null, and also what
    [get_json(silent=True)] returns for a body it cannot parse.  A dict is
    kept as an association list read at its first binding of a key. *)
Inductive json :=
| JNull
| JBool (b : bool)
| JInt (n : Z)
| JFloat (f : pyfloat)
| JStr (s : string)
| JArr (xs : list json)
| JObj (kvs : list (string * json)).

Inductive exn := TypeError | ValueError | OverflowError | AttributeError | KeyError.

(** A Python expression either has a value or raises. *)
Inductive result (A : Type) :=
| Ok (a : A)
| Raise (e : exn).
Arguments Ok {A} a.
Arguments Raise {A} e.

#[global] Instance result_bind : MBind result := fun A B k r =>
  match r with
  | Ok a => k a
  | Raise e => Raise e
  end.

Fixpoint assoc (k : string) (kvs : list (string * json)) : option json :=
  match kvs with
  | [] => None
  | (k', v) :: rest => if String.eqb k k' then Some v else assoc k rest
  end.

(** [sub in s] on two Python strings. *)
Fixpoint is_substring (sub s : string) : bool :=
  String.prefix sub s ||
  match s with
  | EmptyString => false
  | String _ rest => is_substring sub rest
  end.

(** [bool(v)], as [not v] takes it. *)
Definition truthy (v : json) : bool :=
  match v with
  | JNull => false
  | JBool b => b
  | JInt n => negb (n =? 0)
  | JFloat (FFinite m _) => negb (m =? 0)
  | JFloat _ => true
  | JStr s => negb (String.eqb s "")
  | JArr xs => negb (Nat.eqb (length xs) 0)
  | JObj kvs => negb (Nat.eqb (length kvs) 0)
  end.

(** [key in v] for a string [key]: a key of a dict, an element of a list, a
    substring of a string; any other value is not iterable. *)
Definition py_in (key : string) (v : json) : result bool :=
  match v with
  | JObj kvs => Ok (bool_decide (is_Some (assoc key kvs)))
  | JArr xs =>
      Ok (existsb (fun x => match x with JStr s => String.eqb s key | _ => false end) xs)
  | JStr s => Ok (is_substring key s)
  | _ => Raise TypeError
  end.

(** [v[key]] for a string [key]. *)
Definition py_getitem (v : json) (key : string) : result json :=
  match v with
  | JObj kvs => match assoc key kvs with Some x => Ok x | None => Raise KeyError end
  | JArr _ | JStr _ => Raise TypeError
  | _ => Raise TypeError
  end.

(** [v.get(key, default)]. *)
Definition py_get (v : json) (key : string) (default : json) : result json :=
  match v with
  | JObj kvs => Ok (match assoc key kvs with Some x => x | None => default end)
  | _ => Raise AttributeError
  end.

(** ** The process environment

    The configuration read from [os.environ] at import time, and the two
    builtins on strings whose Unicode tables are not reproduced here:
    [str.lower] and [int] applied to a [str] ([None] is its ValueError). *)
Class Runtime := {
  WEBHOOK_TOKEN : string;
  WEBHOOK_PATH : string;
  FORTIGATE_HOST : string;
  FORTIGATE_PORT : Z;
  str_lower : string -> string;
  int_of_str : string -> option Z
}.

(** [int(x)] truncates a float toward zero. *)
Definition trunc (m e : Z) : Z :=
  if 0 <=? e then m * 2 ^ e else Z.quot m (2 ^ (- e)).

Section App.
Context `{rt : Runtime}.

(** [v.lower()]: only a [str] has the method. *)
Definition py_lower (v : json) : result string :=
  match v with
  | JStr s => Ok (str_lower s)
  | _ => Raise AttributeError
  end.

(** [int(v)]. *)
Definition py_int (v : json) : result Z :=
  match v with
  | JInt n => Ok n
  | JBool b => Ok (if b then 1 else 0)
  | JFloat (FFinite m e) => Ok (trunc m e)
  | JFloat (FInf _) => Raise OverflowError
  | JFloat FNaN => Raise ValueError
  | JStr s => match int_of_str s with Some n => Ok n | None => Raise ValueError end
  | JNull | JArr _ | JObj _ => Raise TypeError
  end.

(** ** Effects and the world *)

Inductive level := INFO | WARNING | ERROR.

(** The text of the shaping-policy command for a status word. *)
Definition shaping_command (status : string) : string :=
  "config firewall shaping-policy
edit 17
set status " ++ status ++ "
next
edit 21
set status " ++ status ++ "
next
edit 22
set status " ++ status ++ "
next
end".

Definition enable_command : string := shaping_command "enable".
Definition disable_command : string := shaping_command "disable".

(** What [ssh_execute_command] returns: the dict with [success] true, or the
    one with [success] false, which has no [output] key. *)
Inductive response :=
| RespOk (output error : string)
| RespFail (error : string).

Definition success (r : response) : bool :=
  match r with RespOk _ _ => true | RespFail _ => false end.

Definition resp_error (r : response) : string :=
  match r with RespOk _ e => e | RespFail e => e end.

(** One record per logging call of the program, with the values its
    f-string interpolates. *)
Inductive message :=
| MsgSshConnecting (host : string) (port : Z)
| MsgSshExecuting (command : string)
| MsgSshOutput (output : string)
| MsgSshCommandError (error : string)
| MsgSshFailed (e : string)
| MsgInactivityCheck (elapsed_time : Z)
| MsgNoEvents
| MsgInactivityDisabled
| MsgInactivityFailed (error : string)
| MsgDelayStarting (event : string) (wan_streams : Z)
| MsgDelayCancelled (event : string)
| MsgDelayExecuting (event : string)
| MsgDelayCompleted (event : string)
| MsgDelayFailed (event : string) (error : string)
| MsgUnauthorized (path : string)
| MsgIncoming (request_data : json) (x_forwarded_for : string)
| MsgInvalidRequest
| MsgInvalidWanStreams (wan_streams : json)
| MsgProcessingEnable (event : string)
| MsgSkipping (event : string) (wan_streams : Z)
| MsgTriggering (event : string) (wan_streams : Z)
| MsgIgnoring (event : string).

(** What a thread does to the outside and to the two globals: a log line,
    an [ssh_execute_command] call with its result, a [time.sleep], an
    assignment to [last_event_time], and [set()], [clear()] and a read by
    [is_set()] of [resume_event]. *)
Inductive effect :=
| Log (l : level) (m : message)
| Call (command : string) (r : response)
| Sleep (seconds : Z)
| StoreTime (t : Z)
| SetEvent
| ClearEvent
| IsSet (b : bool).

(** The threads of the process: a request handler, the inactivity checker
    and the delayed-disable threads, numbered in the order they start. *)
Inductive thread :=
| Handler
| Watchdog
| Task (i : nat).

(** Where a [delayed_disable] thread stands. *)
Inductive pc :=
| AtStart
| AtLoop (elapsed : nat)
| AtSleep (elapsed : nat)
| Cancelled
| Expired.

Record dd_task := {
  dd_event : string;
  dd_wan_streams : Z;
  dd_pc : pc
}.

(** Time is counted in microseconds, the resolution of [datetime]. *)
Record world := {
  last_event_time : Z;
  resume_event : bool;
  threads : list dd_task;
  trace : list (thread * effect)
}.

Definition seconds (n : Z) : Z := n * 1000000.

Definition emit (who : thread) (es : list effect) (w : world) : world :=
  {| last_event_time := last_event_time w;
     resume_event := resume_event w;
     threads := threads w;
     trace := (trace w ++ map (pair who) es)%list |}.

Definition set_last_event_time (t : Z) (w : world) : world :=
  {| last_event_time := t;
     resume_event := resume_event w;
     threads := threads w;
     trace := trace w |}.

Definition set_resume_event (b : bool) (w : world) : world :=
  {| last_event_time := last_event_time w;
     resume_event := b;
     threads := threads w;
     trace := trace w |}.

(** [last_event_time = t] and [resume_event.set()], by thread [who]. *)
Definition store_time (who : thread) (t : Z) (w : world) : world :=
  set_last_event_time t (emit who [StoreTime t] w).

Definition set_event (who : thread) (w : world) : world :=
  set_resume_event true (emit who [SetEvent] w).

Definition set_threads (ts : list dd_task) (w : world) : world :=
  {| last_event_time := last_event_time w;
     resume_event := resume_event w;
     threads := ts;
     trace := trace w |}.

(** ** [ssh_execute_command]

    The SSH session is the environment's: it runs to the end with the
    command's output and error streams, or a call raises, at the client's
    construction, at [connect], or from [exec_command] on. *)
Inductive ssh_stage := AtClient | AtConnect | AtExec.

Inductive ssh_env :=
| SshReturns (output error : string)
| SshRaises (stage : ssh_stage) (e : string).

Definition ssh_execute_command (command : string) (env : ssh_env)
  : response * list effect :=
  let connecting := Log INFO (MsgSshConnecting FORTIGATE_HOST FORTIGATE_PORT) in
  let executing := Log INFO (MsgSshExecuting command) in
  match env with
  | SshReturns output error =>
      (RespOk output error,
       ([connecting; executing]
        ++ (if String.eqb output "" then [] else [Log INFO (MsgSshOutput output)])
        ++ (if String.eqb error "" then [] else [Log ERROR (MsgSshCommandError error)]))%list)
  | SshRaises stage e =>
      (RespFail e,
       (match stage with
        | AtClient => []
        | AtConnect => [connecting]
        | AtExec => [connecting; executing]
        end ++ [Log ERROR (MsgSshFailed e)])%list)
  end.

(** The call as the rest of the program sees it: the response, and the
    session's log lines followed by the record of the call. *)
Definition ssh_call (command : string) (env : ssh_env) : response * list effect :=
  let '(r, logs) := ssh_execute_command command env in
  (r, (logs ++ [Call command r])%list).

(** ** [check_inactivity]

    One turn of the [while True] loop: the 300 second sleep, the reading
    [current_time] of the clock, and, when the policy is disabled, the
    reading [now] that is stored once the SSH call has returned. *)
Definition check_inactivity (current_time : Z) (env : ssh_env) (now : Z)
    (w : world) : world :=
  let w := emit Watchdog [Sleep 300] w in
  let elapsed_time := current_time - last_event_time w in
  let w := emit Watchdog [Log INFO (MsgInactivityCheck elapsed_time)] w in
  if seconds 7200 <=? elapsed_time then
    let w := emit Watchdog [Log INFO MsgNoEvents] w in
    let '(response, session) := ssh_call disable_command env in
    let w := emit Watchdog session w in
    let w :=
      if success response
      then emit Watchdog [Log INFO MsgInactivityDisabled] w
      else emit Watchdog [Log ERROR (MsgInactivityFailed (resp_error response))] w in
    store_time Watchdog now w
  else w.

(** ** [delayed_disable]

    One step of a thread running [delayed_disable(event, wan_streams)],
    given the value [signal] that [resume_event] holds when the step runs.
    It returns the thread, the value of [resume_event] after the step and
    the step's effects, the write and the reads of [resume_event] among
    them.  A step is: the entry up to [resume_event.clear()];
    the loop test with the read of [resume_event.is_set()]; one
    [time.sleep(1)] with the increment; the tail of the function after the
    loop. *)
Definition delay_seconds : nat := 120.

Definition at_pc (t : dd_task) (p : pc) : dd_task :=
  {| dd_event := dd_event t; dd_wan_streams := dd_wan_streams t; dd_pc := p |}.

Definition delayed_disable (signal : bool) (env : ssh_env) (t : dd_task)
  : dd_task * bool * list effect :=
  let event := dd_event t in
  match dd_pc t with
  | AtStart =>
      (at_pc t (AtLoop 0), false,
       [Log INFO (MsgDelayStarting event (dd_wan_streams t)); ClearEvent])
  | AtLoop elapsed =>
      if (elapsed <? delay_seconds)%nat then
        if signal
        then (at_pc t Cancelled, signal, [IsSet true; Log INFO (MsgDelayCancelled event)])
        else (at_pc t (AtSleep elapsed), signal, [IsSet false])
      else
        let '(response, session) := ssh_call disable_command env in
        (at_pc t Expired, signal,
         ([Log INFO (MsgDelayExecuting event)] ++ session ++
          [if success response
           then Log INFO (MsgDelayCompleted event)
           else Log ERROR (MsgDelayFailed event (resp_error response))])%list)
  | AtSleep elapsed => (at_pc t (AtLoop (S elapsed)), signal, [Sleep 1])
  | Cancelled | Expired => (t, signal, [])
  end.

(** The step of thread [i] on the world. *)
Definition step_task (i : nat) (env : ssh_env) (w : world) : world :=
  match threads w !! i with
  | None => w
  | Some t =>
      let '(t', signal, effects) := delayed_disable (resume_event w) env t in
      set_threads (<[i := t']> (threads w))
        (set_resume_event signal (emit (Task i) effects w))
  end.

(** [threading.Thread(target=delayed_disable, args=(event, wan_streams),
    daemon=True).start()] *)
Definition start_delayed_disable (event : string) (wan_streams : Z) (w : world)
  : world :=
  set_threads
    (threads w ++ [{| dd_event := event; dd_wan_streams := wan_streams;
                      dd_pc := AtStart |}])%list w.

(** ** [webhook] *)

Record request := {
  header_token : option string;          (* X-Webhook-Token *)
  header_forwarded_for : option string;  (* X-Forwarded-For *)
  get_json : json                        (* request.get_json(silent=True) *)
}.

(** The text under the key [message] of a reply. *)
Inductive text :=
| ExecutedSuccessfully (event : string)
| IgnoredActiveStreams (event : string) (wan_streams : Z)
| ScheduledForDisable (event : string)
| EventIgnored (event : string).

(** The body of a reply; [Unhandled] is the error page Flask sends for an
    exception the view does not catch. *)
Inductive payload :=
| ErrorBody (error : string)
| MessageBody (message : text)
| MessageOutputBody (message : text) (output : string)
| Unhandled (e : exn).

(** Lines 150 to 169: what the handler makes of the request before it
    touches [last_event_time]: an early return, an uncaught exception, or
    the lowered event name and the stream count. *)
Inductive parsed :=
| Rejected (status : Z) (body : payload)
| Crashed (e : exn)
| Accepted (event : string) (wan_streams : Z).

(** [not auth_token or auth_token != WEBHOOK_TOKEN] *)
Definition unauthorized (auth_token : option string) : bool :=
  match auth_token with
  | None => true
  | Some t => String.eqb t "" || negb (String.eqb t WEBHOOK_TOKEN)
  end.

(** [not request_data or 'event' not in request_data] *)
Definition invalid_request (request_data : json) : result bool :=
  if negb (truthy request_data) then Ok true
  else present ← py_in "event" request_data; Ok (negb present).

(** Lines 164 to 169: the stream count and the warning of the [except]
    clause, which catches ValueError and TypeError only. *)
Definition read_wan_streams (request_data : json) : result (Z * list effect) :=
  wan_streams ← py_get request_data "wan_streams" (JInt 0);
  match py_int wan_streams with
  | Ok n => Ok (n, [])
  | Raise ValueError | Raise TypeError =>
      Ok (0, [Log WARNING (MsgInvalidWanStreams wan_streams)])
  | Raise e => Raise e
  end.

Definition webhook_parse (req : request) : parsed * list effect :=
  if unauthorized (header_token req) then
    (Rejected 401 (ErrorBody "Unauthorized"), [Log WARNING (MsgUnauthorized WEBHOOK_PATH)])
  else
    let request_data := get_json req in
    let x_forwarded_for := default "Not provided" (header_forwarded_for req) in
    let incoming := Log INFO (MsgIncoming request_data x_forwarded_for) in
    match invalid_request request_data with
    | Raise e => (Crashed e, [incoming])
    | Ok true =>
        (Rejected 400 (ErrorBody "Invalid request"), [incoming; Log WARNING MsgInvalidRequest])
    | Ok false =>
        match (v ← py_getitem request_data "event"; py_lower v) with
        | Raise e => (Crashed e, [incoming])
        | Ok event =>
            match read_wan_streams request_data with
            | Raise e => (Crashed e, [incoming])
            | Ok (wan_streams, warning) => (Accepted event wan_streams, incoming :: warning)
            end
        end
    end.

(** Lines 171 to 213, with [now] the clock read at line 171 and [env] the
    SSH session of the enable branch. *)
Definition webhook_dispatch (event : string) (wan_streams : Z) (now : Z)
    (env : ssh_env) (w : world) : (Z * payload) * world :=
  let w := store_time Handler now w in
  if String.eqb event "playback_start" || String.eqb event "playback_resume" then
    let w := emit Handler [Log INFO (MsgProcessingEnable event)] w in
    let w := set_event Handler w in
    let '(response, session) := ssh_call enable_command env in
    let w := emit Handler session w in
    match response with
    | RespOk output _ => ((200, MessageOutputBody (ExecutedSuccessfully event) output), w)
    | RespFail error => ((500, ErrorBody error), w)
    end
  else if String.eqb event "playback_pause" then
    if 1 <? wan_streams then
      ((200, MessageBody (IgnoredActiveStreams event wan_streams)),
       emit Handler [Log INFO (MsgSkipping event wan_streams)] w)
    else
      ((200, MessageBody (ScheduledForDisable event)),
       start_delayed_disable event wan_streams
         (emit Handler [Log INFO (MsgTriggering event wan_streams)] w))
  else if String.eqb event "playback_stop" then
    if 1 <=? wan_streams then
      ((200, MessageBody (IgnoredActiveStreams event wan_streams)),
       emit Handler [Log INFO (MsgSkipping event wan_streams)] w)
    else
      ((200, MessageBody (ScheduledForDisable event)),
       start_delayed_disable event wan_streams
         (emit Handler [Log INFO (MsgTriggering event wan_streams)] w))
  else
    ((200, MessageBody (EventIgnored event)),
     emit Handler [Log INFO (MsgIgnoring event)] w).

Definition webhook (req : request) (now : Z) (env : ssh_env) (w : world)
  : (Z * payload) * world :=
  let '(p, logged) := webhook_parse req in
  let w := emit Handler logged w in
  match p with
  | Rejected status body => ((status, body), w)
  | Crashed e => ((500, Unhandled e), w)
  | Accepted event wan_streams => webhook_dispatch event wan_streams now env w
  end.

(** ** The process

    The threads run interleaved: a schedule lists which thread moves next
    and what the environment (clock, SSH session, request) gives it.  An
    entry is one handled request, one step of a delayed-disable thread, or
    one turn of the watchdog's loop, each taken whole: the schedule
    interleaves the threads between entries, not inside a handler or a
    watchdog turn.  A handler writes the globals before its SSH call and
    touches neither after it; a watchdog turn reads [last_event_time]
    before its SSH call and writes it after. *)
Inductive action :=
| Request (req : request) (now : Z) (env : ssh_env)
| Step (i : nat) (env : ssh_env)
| Tick (current_time : Z) (env : ssh_env) (now : Z).

Definition exec (w : world) (a : action) : world :=
  match a with
  | Request req now env => snd (webhook req now env w)
  | Step i env => step_task i env w
  | Tick current_time env now => check_inactivity current_time env now w
  end.

Definition run (acts : list action) (w : world) : world :=
  fold_left exec acts w.

End App.

(** ** Reading a trace *)

#[global] Instance thread_eq_dec : EqDecision thread.
Proof. solve_decision. Defined.

(** Whether an effect is a log line. *)
Definition is_log (e : effect) : bool :=
  match e with Log _ _ => true | _ => false end.

(** A trace without its log lines: the calls, sleeps and accesses to the
    two globals, each with the thread that made it. *)
Definition side_effects (tr : list (thread * effect)) : list (thread * effect) :=
  omap (fun p => if is_log (snd p) then None else Some p) tr.

(** The effects of one thread. *)
Definition by_thread (who : thread) (tr : list (thread * effect)) : list effect :=
  omap (fun p => if decide (fst p = who) then Some (snd p) else None) tr.

(** The commands sent by [ssh_execute_command], in order. *)
Definition commands (es : list effect) : list string :=
  omap (fun e => match e with Call c _ => Some c | _ => None end) es.

(** The seconds spent in [time.sleep]. *)
Definition slept (es : list effect) : Z :=
  foldr (fun e acc => match e with Sleep n => n + acc | _ => acc end) 0 es.

(** The values assigned to [last_event_time]. *)
Definition stored_times (es : list effect) : list Z :=
  omap (fun e => match e with StoreTime t => Some t | _ => None end) es.

(** The number of [resume_event.clear()] calls. *)
Definition clears (tr : list (thread * effect)) : nat :=
  length (omap (fun p => match snd p with ClearEvent => Some tt | _ => None end) tr).

(** The number of [resume_event.set()] calls. *)
Definition sets (tr : list (thread * effect)) : nat :=
  length (omap (fun p => match snd p with SetEvent => Some tt | _ => None end) tr).

(** How often thread [who] sent the disable command. *)
Definition disable_calls (who : thread) (tr : list (thread * effect)) : nat :=
  length (omap (fun c => if String.eqb c disable_command then Some tt else None)
            (commands (by_thread who tr))).

(** How often a schedule lets thread [i] move. *)
Definition steps_of (i : nat) (acts : list action) : nat :=
  length (omap (fun a => match a with
                         | Step j _ => if decide (j = i) then Some tt else None
                         | _ => None
                         end) acts).

(** ** The vocabulary of the statements *)

Section Vocabulary.
Context `{rt : Runtime}.

(** A thread as [start()] leaves it. *)
Definition new_thread (event : string) (n : Z) : dd_task :=
  {| dd_event := event; dd_wan_streams := n; dd_pc := AtStart |}.

(** The handler leaves the globals, the threads and the outside alone. *)
Definition untouched (w w' : world) : Prop :=
  last_event_time w' = last_event_time w /\
  resume_event w' = resume_event w /\
  threads w' = threads w /\
  side_effects (trace w') = side_effects (trace w).

(** A schedule in which only the watchdog moves, its clock readings in
    order from [t] on: no request arrives and no thread runs. *)
Fixpoint silent_from (t : Z) (acts : list action) : Prop :=
  match acts with
  | [] => True
  | Tick current_time _ now :: rest =>
      t <= current_time /\ current_time <= now /\ silent_from now rest
  | _ => False
  end.

(** Each time of [ts] is at least [gap] after the one before it, the first
    at least [gap] after [prev]. *)
Fixpoint spaced (gap prev : Z) (ts : list Z) : Prop :=
  match ts with
  | [] => True
  | t :: rest => prev + gap <= t /\ spaced gap t rest
  end.

(** What [is_set()] returns to the thread: [polled e] at the loop test made
    with [elapsed = e]. *)
Definition observed (polled : nat -> bool) (t : dd_task) : bool :=
  match dd_pc t with
  | AtLoop elapsed => polled elapsed
  | _ => false
  end.

(** [fuel] steps of one thread, with the effects of all of them. *)
Fixpoint dd_steps (fuel : nat) (polled : nat -> bool) (env : ssh_env)
    (t : dd_task) : dd_task * list effect :=
  match fuel with
  | O => (t, [])
  | S fuel =>
      let '(t', _, es) := delayed_disable (observed polled t) env t in
      let '(t'', es') := dd_steps fuel polled env t' in
      (t'', (es ++ es')%list)
  end.

(** [k] rounds of the loop that find the event clear. *)
Fixpoint waiting (k : nat) : list effect :=
  match k with
  | O => []
  | S k => IsSet false :: Sleep 1 :: waiting k
  end.

(** The log line that closes [delayed_disable]. *)
Definition outcome_line (event : string) (response : response) : effect :=
  if success response
  then Log INFO (MsgDelayCompleted event)
  else Log ERROR (MsgDelayFailed event (resp_error response)).

(** The run that is cancelled at its loop test number [k]. *)
Definition cancelled_run (event : string) (n : Z) (k : nat) : list effect :=
  ([Log INFO (MsgDelayStarting event n); ClearEvent] ++ waiting k ++
   [IsSet true; Log INFO (MsgDelayCancelled event)])%list.

(** The run that waits to the end. *)
Definition expired_run (event : string) (n : Z) (env : ssh_env) : list effect :=
  ([Log INFO (MsgDelayStarting event n); ClearEvent] ++ waiting delay_seconds ++
   [Log INFO (MsgDelayExecuting event)] ++ snd (ssh_call disable_command env) ++
   [outcome_line event (fst (ssh_call disable_command env))])%list.

(** The thread a schedule entry moves. *)
Definition actor (a : action) : thread :=
  match a with
  | Request _ _ _ => Handler
  | Step i _ => Task i
  | Tick _ _ _ => Watchdog
  end.

(** Whether a request reaches [resume_event.set()]. *)
Definition enabling (req : request) : bool :=
  match fst (webhook_parse req) with
  | Accepted event _ =>
      String.eqb event "playback_start" || String.eqb event "playback_resume"
  | _ => false
  end.

(** The side effects of handling a request. *)
Definition handler_effects (req : request) (now : Z) (env : ssh_env) : list effect :=
  match fst (webhook_parse req) with
  | Accepted event _ =>
      StoreTime now ::
      (if String.eqb event "playback_start" || String.eqb event "playback_resume"
       then [SetEvent; Call enable_command (fst (ssh_call enable_command env))]
       else [])
  | _ => []
  end.

(** The side effects of one step of a delayed-disable thread. *)
Definition step_effects (signal : bool) (env : ssh_env) (p : pc) : list effect :=
  match p with
  | AtStart => [ClearEvent]
  | AtLoop elapsed =>
      if (elapsed <? delay_seconds)%nat then [IsSet signal]
      else [Call disable_command (fst (ssh_call disable_command env))]
  | AtSleep _ => [Sleep 1]
  | Cancelled | Expired => []
  end.

(** Where a step takes a thread. *)
Definition next_pc (signal : bool) (p : pc) : pc :=
  match p with
  | AtStart => AtLoop 0
  | AtLoop elapsed =>
      if (elapsed <? delay_seconds)%nat
      then if signal then Cancelled else AtSleep elapsed
      else Expired
  | AtSleep elapsed => AtLoop (S elapsed)
  | Cancelled => Cancelled
  | Expired => Expired
  end.

(** What a step leaves in [resume_event]. *)
Definition next_signal (signal : bool) (p : pc) : bool :=
  match p with AtStart => false | _ => signal end.

(** The side effects an entry of the schedule has in world [w]. *)
Definition effects_of (a : action) (w : world) : list effect :=
  match a with
  | Request req now env => handler_effects req now env
  | Step j env =>
      match threads w !! j with
      | Some t => step_effects (resume_event w) env (dd_pc t)
      | None => []
      end
  | Tick current_time env now =>
      Sleep 300 ::
      (if seconds 7200 <=? current_time - last_event_time w
       then [Call disable_command (fst (ssh_call disable_command env)); StoreTime now]
       else [])
  end.

(** A waiting thread that has a loop test still to make. *)
Definition poll_ahead (p : pc) : bool :=
  match p with
  | AtLoop elapsed => (elapsed <? delay_seconds)%nat
  | AtSleep elapsed => (S elapsed <? delay_seconds)%nat
  | _ => false
  end.

(** The steps of its own such a thread needs to make that test. *)
Definition polls_in (p : pc) : nat :=
  match p with
  | AtLoop _ => 1
  | AtSleep _ => 2
  | _ => 0
  end.

(** [resume_event] is set and thread [i] is cancelled, or will be within
    [r] steps of its own. *)
Definition signalled (i : nat) (r : nat) (w : world) : Prop :=
  resume_event w = true /\
  exists t, threads w !! i = Some t /\
    (dd_pc t = Cancelled \/ (poll_ahead (dd_pc t) = true /\ (polls_in (dd_pc t) <= r)%nat)).

(** The steps of its own that take a thread to the end of its wait when
    every loop test finds the event clear. *)
Definition remaining (p : pc) : nat :=
  match p with
  | AtStart => 242
  | AtLoop elapsed => 2 * (delay_seconds - elapsed) + 1
  | AtSleep elapsed => 2 * (delay_seconds - elapsed)
  | Cancelled | Expired => 0
  end.

(** The seconds a thread at [p] has slept. *)
Definition elapsed_of (p : pc) : Z :=
  match p with
  | AtStart | Cancelled => 0
  | AtLoop elapsed | AtSleep elapsed => Z.of_nat elapsed
  | Expired => Z.of_nat delay_seconds
  end.

(** [elapsed] within the loop's bound, and the thread not cancelled. *)
Definition in_range (p : pc) : Prop :=
  match p with
  | AtLoop elapsed => (elapsed <= delay_seconds)%nat
  | AtSleep elapsed => (elapsed < delay_seconds)%nat
  | Cancelled => False
  | _ => True
  end.

(** Thread [i] after [c] steps of its own in a run where nothing sets the
    event; [d] and [s] are its disable calls and its sleep before the run. *)
Definition undisturbed (i c d : nat) (s : Z) (w : world) : Prop :=
  exists t,
    threads w !! i = Some t /\
    in_range (dd_pc t) /\
    remaining (dd_pc t) = (242 - c)%nat /\
    (dd_pc t <> AtStart -> resume_event w = false) /\
    disable_calls (Task i) (trace w) =
      (d + match dd_pc t with Expired => 1 | _ => 0 end)%nat /\
    slept (by_thread (Task i) (trace w)) = s + elapsed_of (dd_pc t).

End Vocabulary.

(** ** A deployment to run the program on

    ASCII text only: [lower] is [str.lower] on ASCII text and [decimal] is
    [int] on the strings made of an optional sign and ASCII digits.
    Elsewhere they are not Python's: [int] also takes surrounding blanks
    and underscores between digits, and [str.lower] lowers letters outside
    ASCII.  The properties below are stated for every [Runtime]; this one
    serves the runs on concrete requests, which stay within that text. *)

Definition lower_ascii (c : ascii) : ascii :=
  let n := nat_of_ascii c in
  if (65 <=? n)%nat && (n <=? 90)%nat then ascii_of_nat (n + 32) else c.

Fixpoint lower (s : string) : string :=
  match s with
  | EmptyString => EmptyString
  | String c rest => String (lower_ascii c) (lower rest)
  end.

Fixpoint digits (s : string) (acc : Z) : option Z :=
  match s with
  | EmptyString => Some acc
  | String c rest =>
      let n := nat_of_ascii c in
      if (48 <=? n)%nat && (n <=? 57)%nat
      then digits rest (10 * acc + Z.of_nat (n - 48))
      else None
  end.

Definition decimal (s : string) : option Z :=
  match s with
  | EmptyString => None
  | String "-" (String _ _ as rest) => Z.opp <$> digits rest 0
  | String "+" (String _ _ as rest) => digits rest 0
  | String "-" EmptyString | String "+" EmptyString => None
  | _ => digits s 0
  end.

Definition test_runtime : Runtime :=
  {| WEBHOOK_TOKEN := "s3cret";
     WEBHOOK_PATH := "/webhook/default";
     FORTIGATE_HOST := "fortigate.example.com";
     FORTIGATE_PORT := 22;
     str_lower := lower;
     int_of_str := decimal |}.

(** A request carrying the right token and the JSON object [kvs]. *)
Definition post (kvs : list (string * json)) : request :=
  {| header_token := Some "s3cret";
     header_forwarded_for := None;
     get_json := JObj kvs |}.

(** The world at import time, the clock reading [t]. *)
Definition boot (t : Z) : world :=
  {| last_event_time := t; resume_event := false; threads := []; trace := [] |}.

(** An SSH session that goes through, and one that cannot connect. *)
Definition session_ok : ssh_env := SshReturns "" "".
Definition session_down : ssh_env := SshRaises AtConnect "timed out".

(** Requests as the media server posts them. *)
Definition resume_request : request := post [("event", JStr "playback_resume")].
Definition pause_request (n : Z) : request :=
  post [("event", JStr "Playback_Pause"); ("wan_streams", JInt n)].
Definition stop_request (n : Z) : request :=
  post [("event", JStr "PLAYBACK_STOP"); ("wan_streams", JInt n)].

(** A world with one thread waiting at its sixth loop test. *)
Definition one_waiting : world :=
  {| last_event_time := 0;
     resume_event := false;
     threads := [{| dd_event := "playback_pause"; dd_wan_streams := 0;
                    dd_pc := AtLoop 5 |}];
     trace := [] |}.

(** * The rest of the module

    ** [ColoredFormatter]

    [format levelname log_message] is [ColoredFormatter.format(record)],
    with [log_message] the line [logging.Formatter.format] makes of the
    record and [levelname] the record's level name. *)

(** An ANSI escape sequence: the character 27 and its parameters. *)
Definition esc (code : string) : string := String (ascii_of_nat 27) code.

Definition COLORS : list (string * string) :=
  [("INFO", esc "[92m"); ("WARNING", esc "[93m"); ("ERROR", esc "[91m");
   ("RESET", esc "[0m")].

Definition EVENT_COLORS : list (string * string) :=
  [("playback_start", esc "[38;5;117m"); ("playback_resume", esc "[96m");
   ("playback_pause", esc "[95m"); ("playback_stop", esc "[38;5;208m")].

(** [d.get(k)] on a dict of strings, kept in insertion order. *)
Fixpoint dict_get (k : string) (d : list (string * string)) : option string :=
  match d with
  | [] => None
  | (k', v) :: rest => if String.eqb k k' then Some v else dict_get k rest
  end.

(** [self.COLORS['RESET']] *)
Definition RESET : string := default "" (dict_get "RESET" COLORS).

(** The [for] loop of [format]: the colour of the first item whose event
    name occurs in the lowered line. *)
Fixpoint first_event (lowered : string) (items : list (string * string))
  : option string :=
  match items with
  | [] => None
  | (event, color) :: rest =>
      if is_substring event lowered then Some color else first_event lowered rest
  end.

Section Rest.
Context `{rt : Runtime}.

Definition format (levelname log_message : string) : string :=
  match first_event (str_lower log_message) EVENT_COLORS with
  | Some color => color ++ log_message ++ RESET
  | None => default RESET (dict_get levelname COLORS) ++ log_message ++ RESET
  end.

(** ** The module's start, lines 40 to 53

    [environ] is [os.environ]; the two log lines of the start are kept
    apart from the handler's. *)

Record settings := {
  token : string;       (* WEBHOOK_TOKEN *)
  path : string;        (* WEBHOOK_PATH *)
  host : string;        (* FORTIGATE_HOST *)
  user : string;        (* FORTIGATE_USER *)
  password : string;    (* FORTIGATE_PASSWORD *)
  port : Z              (* FORTIGATE_PORT *)
}.

Inductive start_line :=
| TokenRequired     (* "WEBHOOK_TOKEN environment variable is required" *)
| UuidNotProvided.  (* "WEBHOOK_UUID not provided, using default path" *)

(** [bool(os.environ.get(k))]: the variable is set and not empty. *)
Definition env_truthy (v : option string) : bool :=
  match v with
  | Some s => negb (String.eqb s "")
  | None => false
  end.

(** [int(os.environ.get('FORTIGATE_PORT', 22))] *)
Definition read_port (environ : list (string * string)) : result Z :=
  match dict_get "FORTIGATE_PORT" environ with
  | None => Ok 22
  | Some s =>
      match int_of_str s with
      | Some n => Ok n
      | None => Raise ValueError
      end
  end.

Definition startup (environ : list (string * string))
  : result settings * list (level * start_line) :=
  let WEBHOOK_TOKEN := dict_get "WEBHOOK_TOKEN" environ in
  let WEBHOOK_UUID := dict_get "WEBHOOK_UUID" environ in
  let WEBHOOK_PATH :=
    if env_truthy WEBHOOK_UUID
    then "/webhook/" ++ default "" WEBHOOK_UUID
    else "/webhook/default" in
  if negb (env_truthy WEBHOOK_TOKEN) then
    (Raise ValueError, [(ERROR, TokenRequired)])
  else
    let logged :=
      if negb (env_truthy WEBHOOK_UUID) then [(WARNING, UuidNotProvided)] else [] in
    match read_port environ with
    | Raise e => (Raise e, logged)
    | Ok FORTIGATE_PORT =>
        (Ok {| token := default "" WEBHOOK_TOKEN;
               path := WEBHOOK_PATH;
               host := default "fortigate.example.com"
                         (dict_get "FORTIGATE_HOST" environ);
               user := default "admin" (dict_get "FORTIGATE_USER" environ);
               password := default "password" (dict_get "FORTIGATE_PASS" environ);
               port := FORTIGATE_PORT |},
         logged)
    end.

(** The process the handlers run in once the module has started. *)
Definition runtime_of (s : settings) : Runtime :=
  {| WEBHOOK_TOKEN := token s;
     WEBHOOK_PATH := path s;
     FORTIGATE_HOST := host s;
     FORTIGATE_PORT := port s;
     str_lower := str_lower;
     int_of_str := int_of_str |}.

(** ** More vocabulary *)

(** Whether a request starts a delayed-disable thread. *)
Definition scheduling (req : request) : bool :=
  match fst (webhook_parse req) with
  | Accepted event n =>
      negb (String.eqb event "playback_start" || String.eqb event "playback_resume")
      && ((String.eqb event "playback_pause" && (n <=? 1))
          || (negb (String.eqb event "playback_pause")
              && String.eqb event "playback_stop" && (n <? 1)))
  | _ => false
  end.

(** The threads a schedule starts. *)
Definition spawned (acts : list action) : nat :=
  length (omap (fun a => match a with
                         | Request req _ _ => if scheduling req then Some tt else None
                         | _ => None
                         end) acts).

(** Which thread may have which side effect: the handler alone assigns the
    clock on a request, sets the event and sends the enable command; the
    watchdog sleeps its 300 seconds, sends the disable command and assigns
    the clock; a delayed-disable thread clears and reads the event, sleeps
    one second at a time and sends the disable command. *)
Definition attributed (p : thread * effect) : Prop :=
  match p with
  | (_, Log _ _) => True
  | (Handler, StoreTime _) | (Handler, SetEvent) => True
  | (Handler, Call command _) => command = enable_command
  | (Watchdog, Sleep n) => n = 300
  | (Watchdog, StoreTime _) => True
  | (Watchdog, Call command _) => command = disable_command
  | (Task _, ClearEvent) | (Task _, IsSet _) => True
  | (Task _, Sleep n) => n = 1
  | (Task _, Call command _) => command = disable_command
  | _ => False
  end.

(** A thread that has made the last loop test of its wait. *)
Definition past_last_test (p : pc) : bool :=
  match p with
  | AtSleep elapsed => (delay_seconds <=? S elapsed)%nat
  | AtLoop elapsed => (delay_seconds <=? elapsed)%nat
  | _ => false
  end.

(** Thread [i] has made its last loop test and has called [d] times, or
    has ended its wait with one call more. *)
Definition committed (i d r : nat) (w : world) : Prop :=
  exists t,
    threads w !! i = Some t /\
    ((dd_pc t = Expired /\ disable_calls (Task i) (trace w) = S d) \/
     (past_last_test (dd_pc t) = true /\ (polls_in (dd_pc t) <= r)%nat /\
      disable_calls (Task i) (trace w) = d)).

End Rest.

(** A world with one thread in the last second of its wait. *)
Definition last_second : world :=
  {| last_event_time := 0;
     resume_event := false;
     threads := [{| dd_event := "playback_stop"; dd_wan_streams := 0;
                    dd_pc := AtSleep 119 |}];
     trace := [] |}.

(** The settings of a process given only its token. *)
Definition token_only : settings :=
  {| token := "s3cret"; path := "/webhook/default";
     host := "fortigate.example.com"; user := "admin"; password := "password";
     port := 22 |}.

(** * Properties *)

Section Properties.
Context `{rt : Runtime}.

Lemma side_effects_app (a b : list (thread * effect)) :
  side_effects (a ++ b) = (side_effects a ++ side_effects b)%list.
Proof. apply omap_app. Qed.

Lemma by_thread_app (who : thread) (a b : list (thread * effect)) :
  by_thread who (a ++ b) = (by_thread who a ++ by_thread who b)%list.
Proof. apply omap_app. Qed.

Lemma commands_app (a b : list effect) :
  commands (a ++ b) = (commands a ++ commands b)%list.
Proof. apply omap_app. Qed.

(** A request that gets past line 169 is handled by lines 171 to 213. *)
Lemma webhook_accepted (req : request) (event : string) (n : Z)
    (logged : list effect) (now : Z) (env : ssh_env) (w : world) :
  webhook_parse req = (Accepted event n, logged) ->
  webhook req now env w = webhook_dispatch event n now env (emit Handler logged w).
Proof. intros H. unfold webhook. rewrite H. reflexivity. Qed.

(** What [webhook_parse] logs are log lines. *)
Lemma webhook_parse_logs (req : request) :
  forallb is_log (snd (webhook_parse req)) = true.
Proof.
  unfold webhook_parse.
  destruct (unauthorized _); [reflexivity|].
  destruct (invalid_request _) as [[]|]; try reflexivity.
  destruct (_ ≫= _); try reflexivity.
  unfold read_wan_streams.
  destruct (py_get _ _ _) as [v|]; try reflexivity. cbn.
  destruct (py_int v) as [|[]]; reflexivity.
Qed.

Lemma side_effects_logs (who : thread) (es : list effect) :
  forallb is_log es = true -> side_effects (map (pair who) es) = [].
Proof.
  induction es as [|e es IH]; [reflexivity|].
  simpl. intros [E H]%andb_prop.
  unfold side_effects in *. simpl. rewrite E. auto.
Qed.

(** The side effects a handler adds when all it logs besides are lines. *)
Lemma side_effects_emit_logs (who : thread) (es : list effect) (w : world) :
  forallb is_log es = true ->
  side_effects (trace (emit who es w)) = side_effects (trace w).
Proof.
  intros H. cbn. rewrite side_effects_app, (side_effects_logs _ _ H).
  apply app_nil_r.
Qed.

(** C3: a pause event starts a delayed-disable thread exactly when
    [wan_streams <= 1], a stop event exactly when [wan_streams < 1]; an
    event over its threshold is answered at once as ignored, with no thread
    started and nothing done but the assignment to [last_event_time]. *)
Theorem pause_stop_thresholds (req : request) (event : string) (n : Z)
    (logged : list effect) (now : Z) (env : ssh_env) (w : world) :
  webhook_parse req = (Accepted event n, logged) ->
  let ack := fst (webhook req now env w) in
  let w' := snd (webhook req now env w) in
  (event = "playback_pause" ->
     (n <= 1 ->
        threads w' = (threads w ++ [new_thread event n])%list /\
        ack = (200, MessageBody (ScheduledForDisable event))) /\
     (1 < n ->
        threads w' = threads w /\
        ack = (200, MessageBody (IgnoredActiveStreams event n)) /\
        side_effects (trace w') =
          (side_effects (trace w) ++ [(Handler, StoreTime now)])%list)) /\
  (event = "playback_stop" ->
     (n < 1 ->
        threads w' = (threads w ++ [new_thread event n])%list /\
        ack = (200, MessageBody (ScheduledForDisable event))) /\
     (1 <= n ->
        threads w' = threads w /\
        ack = (200, MessageBody (IgnoredActiveStreams event n)) /\
        side_effects (trace w') =
          (side_effects (trace w) ++ [(Handler, StoreTime now)])%list)).
Proof.
  intros H ack w'. subst ack w'. rewrite (webhook_accepted _ _ _ _ _ _ _ H).
  pose proof (webhook_parse_logs req) as L. rewrite H in L. cbn in L.
  split; intros ->; unfold webhook_dispatch;
    cbn [String.eqb Ascii.eqb Bool.eqb orb]; split; intros Hn.
  - destruct (Z.ltb_spec 1 n); [lia|]. split; reflexivity.
  - destruct (Z.ltb_spec 1 n); [|lia]. repeat split.
    cbn. rewrite !side_effects_app, (side_effects_logs _ _ L).
    cbn. rewrite !app_nil_r. reflexivity.
  - destruct (Z.leb_spec 1 n); [lia|]. split; reflexivity.
  - destruct (Z.leb_spec 1 n); [|lia]. repeat split.
    cbn. rewrite !side_effects_app, (side_effects_logs _ _ L).
    cbn. rewrite !app_nil_r. reflexivity.
Qed.

(** The session of an SSH call leaves one side effect, the call. *)
Lemma side_effects_ssh_call (who : thread) (command : string) (env : ssh_env) :
  side_effects (map (pair who) (snd (ssh_call command env))) =
  [(who, Call command (fst (ssh_call command env)))].
Proof.
  unfold ssh_call, ssh_execute_command.
  destruct env as [output error|[] e]; cbn; try reflexivity.
  destruct (String.eqb output ""), (String.eqb error ""); reflexivity.
Qed.

Lemma ssh_call_response (command : string) (env : ssh_env) :
  fst (ssh_call command env) =
  match env with
  | SshReturns output error => RespOk output error
  | SshRaises _ e => RespFail e
  end.
Proof. destruct env; reflexivity. Qed.

(** Of the requests the handler takes past line 169: a start or resume
    event, whatever its stream count, sets [resume_event], then sends the
    enable command once, and is answered with the outcome of that call:
    200 with the output when the call succeeds, 500 with the error when it
    fails. *)
Theorem enable_runs_once (req : request) (event : string) (n : Z)
    (logged : list effect) (now : Z) (env : ssh_env) (w : world) :
  webhook_parse req = (Accepted event n, logged) ->
  event = "playback_start" \/ event = "playback_resume" ->
  let ack := fst (webhook req now env w) in
  let w' := snd (webhook req now env w) in
  let response := fst (ssh_call enable_command env) in
  resume_event w' = true /\
  side_effects (trace w') =
    (side_effects (trace w) ++
     [(Handler, StoreTime now); (Handler, SetEvent);
      (Handler, Call enable_command response)])%list /\
  ack = match response with
        | RespOk output _ => (200, MessageOutputBody (ExecutedSuccessfully event) output)
        | RespFail error => (500, ErrorBody error)
        end /\
  threads w' = threads w.
Proof.
  intros H Hev ack w' response. subst ack w' response.
  rewrite (webhook_accepted _ _ _ _ _ _ _ H).
  pose proof (webhook_parse_logs req) as L. rewrite H in L. cbn in L.
  pose proof (side_effects_ssh_call Handler enable_command env) as S.
  unfold webhook_dispatch.
  replace (String.eqb event "playback_start" || String.eqb event "playback_resume")
    with true by (destruct Hev as [-> | ->]; reflexivity).
  destruct (ssh_call enable_command env) as [response session]. cbn [fst snd] in S.
  assert (T : side_effects
    (trace (emit Handler session (set_event Handler
       (emit Handler [Log INFO (MsgProcessingEnable event)]
          (store_time Handler now (emit Handler logged w)))))) =
    (side_effects (trace w) ++ [(Handler, StoreTime now); (Handler, SetEvent);
       (Handler, Call enable_command response)])%list).
  { unfold emit, set_event, store_time, emit; cbn [trace set_resume_event set_last_event_time].
    rewrite !side_effects_app, (side_effects_logs _ _ L), S. cbn.
    rewrite !app_nil_r, <- !app_assoc. reflexivity. }
  destruct response; cbn [fst snd]; repeat split; try exact T.
Qed.

(** A request that does not get past line 169, by an early return or by an
    exception, changes nothing. *)
Lemma not_accepted_untouched (req : request) (now : Z) (env : ssh_env) (w : world) :
  (forall event n, fst (webhook_parse req) <> Accepted event n) ->
  untouched w (snd (webhook req now env w)).
Proof.
  intros H. pose proof (webhook_parse_logs req) as L. unfold webhook.
  destruct (webhook_parse req) as [[status body|e|event n] logged]; cbn in *.
  - repeat split. now apply side_effects_emit_logs.
  - repeat split. now apply side_effects_emit_logs.
  - now destruct (H event n).
Qed.

(** C8: a request whose token is missing or differs from [WEBHOOK_TOKEN] is
    answered 401, and an authorized one whose body did not parse or is an
    object without the key [event] is answered 400; either way
    [last_event_time], [resume_event] and the threads are as before and
    nothing was called.  The same holds of every request that does not get
    as far as line 171, whatever stops it. *)
Theorem rejected_requests_touch_nothing (req : request) (now : Z)
    (env : ssh_env) (w : world) :
  let ack := fst (webhook req now env w) in
  let w' := snd (webhook req now env w) in
  (header_token req = None \/ header_token req <> Some WEBHOOK_TOKEN ->
     ack = (401, ErrorBody "Unauthorized") /\ untouched w w') /\
  (unauthorized (header_token req) = false ->
   get_json req = JNull \/
   (exists kvs, get_json req = JObj kvs /\ assoc "event" kvs = None) ->
     ack = (400, ErrorBody "Invalid request") /\ untouched w w') /\
  ((forall event n, fst (webhook_parse req) <> Accepted event n) ->
     untouched w w').
Proof.
  intros ack w'. subst ack w'. split; [|split; [|apply not_accepted_untouched]].
  - intros Htok.
    assert (U : unauthorized (header_token req) = true).
    { unfold unauthorized. destruct (header_token req) as [t|]; [|reflexivity].
      destruct (String.eqb_spec t WEBHOOK_TOKEN) as [->|];
        [destruct Htok; congruence | apply orb_true_r]. }
    split.
    + unfold webhook, webhook_parse. rewrite U. reflexivity.
    + apply not_accepted_untouched. intros event n.
      unfold webhook_parse. rewrite U. discriminate.
  - intros U Hbody.
    assert (V : invalid_request (get_json req) = Ok true).
    { destruct Hbody as [-> | (kvs & -> & Hk)]; [reflexivity|].
      unfold invalid_request. destruct (truthy (JObj kvs)); [|reflexivity].
      cbn. rewrite Hk. reflexivity. }
    split.
    + unfold webhook, webhook_parse. rewrite U, V. reflexivity.
    + apply not_accepted_untouched. intros event n.
      unfold webhook_parse. rewrite U, V. discriminate.
Qed.

Lemma sets_side_effects (tr : list (thread * effect)) :
  sets (side_effects tr) = sets tr.
Proof.
  unfold sets, side_effects. induction tr as [|[who []] tr IH]; cbn in *; auto.
Qed.

Lemma clears_side_effects (tr : list (thread * effect)) :
  clears (side_effects tr) = clears tr.
Proof.
  unfold clears, side_effects. induction tr as [|[who []] tr IH]; cbn in *; auto.
Qed.

Lemma sets_app (a b : list (thread * effect)) : sets (a ++ b) = (sets a + sets b)%nat.
Proof. unfold sets. now rewrite omap_app, length_app. Qed.

Lemma clears_app (a b : list (thread * effect)) :
  clears (a ++ b) = (clears a + clears b)%nat.
Proof. unfold clears. now rewrite omap_app, length_app. Qed.

(** The side effects of lines 171 to 213: the assignment to
    [last_event_time], and on the enable branch [set()] and the call. *)
Lemma webhook_dispatch_side_effects (event : string) (n now : Z)
    (env : ssh_env) (w : world) :
  side_effects (trace (snd (webhook_dispatch event n now env w))) =
  (side_effects (trace w) ++
   (Handler, StoreTime now) ::
   (if String.eqb event "playback_start" || String.eqb event "playback_resume"
    then [(Handler, SetEvent);
          (Handler, Call enable_command (fst (ssh_call enable_command env)))]
    else []))%list.
Proof.
  unfold webhook_dispatch.
  pose proof (side_effects_ssh_call Handler enable_command env) as S.
  destruct (String.eqb event "playback_start" || String.eqb event "playback_resume").
  - destruct (ssh_call enable_command env) as [response session]. cbn [fst snd] in S.
    assert (T : side_effects
      (trace (emit Handler session (set_event Handler
         (emit Handler [Log INFO (MsgProcessingEnable event)]
            (store_time Handler now w))))) =
      (side_effects (trace w) ++ [(Handler, StoreTime now); (Handler, SetEvent);
         (Handler, Call enable_command response)])%list).
    { unfold emit, set_event, store_time, emit;
        cbn [trace set_resume_event set_last_event_time].
      rewrite !side_effects_app, S. cbn. rewrite !app_nil_r, <- !app_assoc.
      reflexivity. }
    destruct response; exact T.
  - destruct (String.eqb event "playback_pause");
      [destruct (1 <? n) | destruct (String.eqb event "playback_stop");
                           [destruct (1 <=? n)|]];
      cbn; rewrite !side_effects_app; cbn; rewrite ?app_nil_r; reflexivity.
Qed.

(** Of the requests the handler takes past line 169: [last_event_time] is
    assigned the current time before anything else is done, whatever the
    event; [resume_event] is written on the start and resume branch only, a
    thread is started by a pause or stop event under its threshold only,
    and any other event name does nothing besides the assignment and is
    answered as ignored. *)
Theorem dispatch_frame (req : request) (event : string) (n : Z)
    (logged : list effect) (now : Z) (env : ssh_env) (w : world) :
  webhook_parse req = (Accepted event n, logged) ->
  let ack := fst (webhook req now env w) in
  let w' := snd (webhook req now env w) in
  let enables := event = "playback_start" \/ event = "playback_resume" in
  let schedules :=
    (event = "playback_pause" /\ n <= 1) \/ (event = "playback_stop" /\ n < 1) in
  last_event_time w' = now /\
  (exists rest,
     side_effects (trace w') =
       (side_effects (trace w) ++ (Handler, StoreTime now) :: rest)%list /\
     stored_times (map snd rest) = []) /\
  (~ enables ->
     resume_event w' = resume_event w /\
     sets (trace w') = sets (trace w) /\ clears (trace w') = clears (trace w)) /\
  (~ schedules -> threads w' = threads w) /\
  (~ enables -> event <> "playback_pause" -> event <> "playback_stop" ->
     ack = (200, MessageBody (EventIgnored event)) /\
     threads w' = threads w /\
     resume_event w' = resume_event w /\
     side_effects (trace w') =
       (side_effects (trace w) ++ [(Handler, StoreTime now)])%list).
Proof.
  intros H ack w' enables schedules. subst ack w' enables schedules.
  rewrite (webhook_accepted _ _ _ _ _ _ _ H).
  pose proof (webhook_parse_logs req) as L. rewrite H in L. cbn in L.
  pose proof (webhook_dispatch_side_effects event n now env (emit Handler logged w)) as S.
  rewrite (side_effects_emit_logs _ _ _ L) in S.
  assert (E : (String.eqb event "playback_start" || String.eqb event "playback_resume") = false
              \/ (event = "playback_start" \/ event = "playback_resume")).
  { destruct (String.eqb_spec event "playback_start"); [tauto|].
    destruct (String.eqb_spec event "playback_resume"); tauto. }
  split; [|split; [|split; [|split]]].
  - unfold webhook_dispatch.
    destruct (String.eqb event "playback_start" || String.eqb event "playback_resume").
    + destruct (ssh_call enable_command env) as [[] ?]; reflexivity.
    + destruct (String.eqb event "playback_pause");
        [destruct (1 <? n) | destruct (String.eqb event "playback_stop");
                             [destruct (1 <=? n)|]]; reflexivity.
  - eexists. split; [exact S|].
    destruct (String.eqb event "playback_start" || String.eqb event "playback_resume");
      reflexivity.
  - intros NE. destruct E as [E|E]; [|tauto].
    rewrite E in S. split; [|split].
    + unfold webhook_dispatch. rewrite E.
      destruct (String.eqb event "playback_pause");
        [destruct (1 <? n) | destruct (String.eqb event "playback_stop");
                             [destruct (1 <=? n)|]]; reflexivity.
    + rewrite <- sets_side_effects, S, sets_app, sets_side_effects. cbn. lia.
    + rewrite <- clears_side_effects, S, clears_app, clears_side_effects. cbn. lia.
  - intros NS. unfold webhook_dispatch.
    destruct (String.eqb event "playback_start" || String.eqb event "playback_resume").
    + destruct (ssh_call enable_command env) as [[] ?]; reflexivity.
    + destruct (String.eqb_spec event "playback_pause").
      * destruct (Z.ltb_spec 1 n); [reflexivity|]. destruct NS. left. split; [assumption|lia].
      * destruct (String.eqb_spec event "playback_stop"); [|reflexivity].
        destruct (Z.leb_spec 1 n); [reflexivity|]. destruct NS. right. split; [assumption|lia].
  - intros NE NP NS. destruct E as [E|E]; [|tauto].
    rewrite E in S. split; [|split; [|split]]; try exact S;
      unfold webhook_dispatch; rewrite E;
      destruct (String.eqb_spec event "playback_pause"); try contradiction;
      destruct (String.eqb_spec event "playback_stop"); try contradiction;
      reflexivity.
Qed.

(** Lines 164 to 169 on a body that is an object: the count is 0 when the
    key is absent, and 0 with a warning when [int] raises ValueError or
    TypeError. *)
Lemma read_wan_streams_default (kvs : list (string * json)) :
  (assoc "wan_streams" kvs = None -> read_wan_streams (JObj kvs) = Ok (0, [])) /\
  (forall v, assoc "wan_streams" kvs = Some v ->
     py_int v = Raise ValueError \/ py_int v = Raise TypeError ->
     read_wan_streams (JObj kvs) = Ok (0, [Log WARNING (MsgInvalidWanStreams v)])).
Proof.
  unfold read_wan_streams. cbn. split.
  - intros ->. reflexivity.
  - intros v -> [E|E]; cbn; rewrite E; reflexivity.
Qed.

(** An infinite float is the one value whose [int] raises what the
    [except] clause does not catch. *)
Lemma read_wan_streams_overflow (kvs : list (string * json)) (e : exn) :
  read_wan_streams (JObj kvs) = Raise e <->
  e = OverflowError /\
  exists negative, assoc "wan_streams" kvs = Some (JFloat (FInf negative)).
Proof.
  unfold read_wan_streams. cbn.
  destruct (assoc "wan_streams" kvs) as [v|]; cbn.
  - destruct v as [| | |[| |]| | |]; cbn; try destruct (int_of_str _);
      split; try discriminate; try (intros [_ [? ?]]; discriminate).
    + intros [= <-]. eauto.
    + intros [-> _]. reflexivity.
  - split; [discriminate|]. intros [_ [? ?]]. discriminate.
Qed.

(** ** The inactivity watchdog *)
Lemma disable_calls_app (who : thread) (a b : list (thread * effect)) :
  disable_calls who (a ++ b) = (disable_calls who a + disable_calls who b)%nat.
Proof.
  unfold disable_calls. now rewrite by_thread_app, commands_app, omap_app, length_app.
Qed.

Lemma disable_calls_side_effects (who : thread) (tr : list (thread * effect)) :
  disable_calls who (side_effects tr) = disable_calls who tr.
Proof.
  unfold disable_calls, side_effects, by_thread.
  induction tr as [|[x e] tr IH]; [reflexivity|].
  destruct e; cbn in *; try exact IH;
    destruct (decide (x = who)); cbn; try exact IH.
  unfold commands in *. cbn. destruct (String.eqb command disable_command); cbn; auto.
Qed.

Lemma stored_times_side_effects (who : thread) (tr : list (thread * effect)) :
  stored_times (by_thread who (side_effects tr)) = stored_times (by_thread who tr).
Proof.
  unfold stored_times, side_effects, by_thread.
  induction tr as [|[x e] tr IH]; [reflexivity|].
  destruct e; cbn in *; try exact IH;
    destruct (decide (x = who)); cbn; try exact IH; now f_equal.
Qed.

(** The side effects of one turn of the watchdog's loop. *)
Lemma check_inactivity_side_effects (current_time : Z) (env : ssh_env)
    (now : Z) (w : world) :
  side_effects (trace (check_inactivity current_time env now w)) =
  (side_effects (trace w) ++
   (Watchdog, Sleep 300) ::
   (if seconds 7200 <=? current_time - last_event_time w
    then [(Watchdog, Call disable_command (fst (ssh_call disable_command env)));
          (Watchdog, StoreTime now)]
    else []))%list.
Proof.
  unfold check_inactivity. cbn [last_event_time emit].
  pose proof (side_effects_ssh_call Watchdog disable_command env) as S.
  destruct (seconds 7200 <=? current_time - last_event_time w).
  - destruct (ssh_call disable_command env) as [response session]. cbn [fst snd] in S.
    destruct (success response);
      unfold store_time, emit; cbn [trace set_last_event_time];
      rewrite !side_effects_app, S; cbn; rewrite ?app_nil_r, <- ?app_assoc;
      reflexivity.
  - cbn. rewrite !side_effects_app. cbn. rewrite ?app_nil_r, <- ?app_assoc. reflexivity.
Qed.

Lemma check_inactivity_clock (current_time : Z) (env : ssh_env) (now : Z) (w : world) :
  last_event_time (check_inactivity current_time env now w) =
  if seconds 7200 <=? current_time - last_event_time w then now else last_event_time w.
Proof.
  unfold check_inactivity. cbn [last_event_time emit].
  destruct (seconds 7200 <=? current_time - last_event_time w); [|reflexivity].
  destruct (ssh_call disable_command env) as [response session].
  destruct (success response); reflexivity.
Qed.

Lemma check_inactivity_disable_calls (current_time : Z) (env : ssh_env)
    (now : Z) (w : world) :
  disable_calls Watchdog (trace (check_inactivity current_time env now w)) =
  (disable_calls Watchdog (trace w) +
   if (seconds 7200 <=? current_time - last_event_time w)%Z then 1 else 0)%nat.
Proof.
  rewrite <- disable_calls_side_effects, check_inactivity_side_effects,
    disable_calls_app, disable_calls_side_effects.
  destruct (seconds 7200 <=? current_time - last_event_time w); reflexivity.
Qed.

Lemma check_inactivity_stored_times (current_time : Z) (env : ssh_env)
    (now : Z) (w : world) :
  stored_times (by_thread Watchdog (trace (check_inactivity current_time env now w))) =
  (stored_times (by_thread Watchdog (trace w)) ++
   if seconds 7200 <=? current_time - last_event_time w then [now] else [])%list.
Proof.
  rewrite <- stored_times_side_effects, check_inactivity_side_effects,
    by_thread_app.
  unfold stored_times at 1. rewrite omap_app. fold (stored_times (by_thread Watchdog (side_effects (trace w)))).
  rewrite stored_times_side_effects.
  destruct (seconds 7200 <=? current_time - last_event_time w); reflexivity.
Qed.

(** C10: a turn of the watchdog that finds less than 7200 seconds elapsed
    sleeps and does nothing else: no call, [last_event_time] as it was; the
    watchdog assigns [last_event_time] only on a turn in which it sends the
    disable command. *)
Theorem quiet_tick_changes_nothing (current_time : Z) (env : ssh_env)
    (now : Z) (w : world) :
  let w' := check_inactivity current_time env now w in
  (current_time - last_event_time w < seconds 7200 ->
     last_event_time w' = last_event_time w /\
     resume_event w' = resume_event w /\
     threads w' = threads w /\
     side_effects (trace w') =
       (side_effects (trace w) ++ [(Watchdog, Sleep 300)])%list) /\
  (last_event_time w' <> last_event_time w \/
   stored_times (by_thread Watchdog (trace w')) <>
     stored_times (by_thread Watchdog (trace w)) ->
     disable_calls Watchdog (trace w') = S (disable_calls Watchdog (trace w))).
Proof.
  intros w'. subst w'.
  pose proof (check_inactivity_side_effects current_time env now w) as S.
  pose proof (check_inactivity_clock current_time env now w) as C.
  pose proof (check_inactivity_disable_calls current_time env now w) as D.
  pose proof (check_inactivity_stored_times current_time env now w) as T.
  destruct (Z.leb_spec (seconds 7200) (current_time - last_event_time w)).
  - split; [lia|]. intros _. lia.
  - split.
    + intros _. repeat split; try assumption.
      * unfold check_inactivity. cbn [last_event_time emit].
        destruct (Z.leb_spec (seconds 7200) (current_time - last_event_time w));
          [lia | reflexivity].
      * unfold check_inactivity. cbn [last_event_time emit].
        destruct (Z.leb_spec (seconds 7200) (current_time - last_event_time w));
          [lia | reflexivity].
    + rewrite app_nil_r in T. intros [N|N]; contradiction.
Qed.

Lemma watchdog_run_spaced (acts : list action) :
  forall (w : world) (t : Z),
    last_event_time w <= t ->
    silent_from t acts ->
    exists ts,
      stored_times (by_thread Watchdog (trace (run acts w))) =
        (stored_times (by_thread Watchdog (trace w)) ++ ts)%list /\
      spaced (seconds 7200) (last_event_time w) ts /\
      disable_calls Watchdog (trace (run acts w)) =
        (disable_calls Watchdog (trace w) + length ts)%nat.
Proof.
  induction acts as [|a acts IH]; intros w t Ht Hs.
  - exists []. cbn. rewrite app_nil_r. repeat split. lia.
  - destruct a as [| |current_time env now]; try contradiction.
    destruct Hs as (H1 & H2 & Hs). cbn [run fold_left exec].
    pose proof (check_inactivity_clock current_time env now w) as C.
    pose proof (check_inactivity_disable_calls current_time env now w) as D.
    pose proof (check_inactivity_stored_times current_time env now w) as T.
    set (w1 := check_inactivity current_time env now w) in *.
    destruct (Z.leb_spec (seconds 7200) (current_time - last_event_time w)).
    + destruct (IH w1 now) as (ts & E1 & E2 & E3); [lia | assumption |].
      exists (now :: ts). fold (run acts w1).
      rewrite E1, E3, T, D, <- app_assoc. cbn. rewrite C in E2.
      repeat split; [lia | assumption | lia].
    + destruct (IH w1 now) as (ts & E1 & E2 & E3); [lia | assumption |].
      exists ts. fold (run acts w1).
      rewrite E1, E3, T, D, app_nil_r. rewrite C in E2.
      repeat split; [assumption | lia].
Qed.

(** C5: a turn of the watchdog sends the disable command exactly when at
    least 7200 seconds have elapsed since [last_event_time]; it then
    assigns the current time to [last_event_time] whether the call
    succeeded or failed.  So while only the watchdog runs, every disable
    attempt is paired with an assignment, consecutive ones at least 7200
    seconds apart; and once a turn has fired, a turn 7200 seconds after
    its assignment fires again. *)
Theorem watchdog_fires_at_two_hours :
  (forall (current_time : Z) (env : ssh_env) (now : Z) (w : world),
     let w' := check_inactivity current_time env now w in
     (seconds 7200 <= current_time - last_event_time w ->
        disable_calls Watchdog (trace w') = S (disable_calls Watchdog (trace w)) /\
        last_event_time w' = now /\
        side_effects (trace w') =
          (side_effects (trace w) ++
           [(Watchdog, Sleep 300);
            (Watchdog, Call disable_command (fst (ssh_call disable_command env)));
            (Watchdog, StoreTime now)])%list) /\
     (current_time - last_event_time w < seconds 7200 ->
        disable_calls Watchdog (trace w') = disable_calls Watchdog (trace w))) /\
  (forall (acts : list action) (w : world),
     silent_from (last_event_time w) acts ->
     exists ts,
       stored_times (by_thread Watchdog (trace (run acts w))) =
         (stored_times (by_thread Watchdog (trace w)) ++ ts)%list /\
       spaced (seconds 7200) (last_event_time w) ts /\
       disable_calls Watchdog (trace (run acts w)) =
         (disable_calls Watchdog (trace w) + length ts)%nat) /\
  (forall (t1 t2 now1 now2 : Z) (env1 env2 : ssh_env) (w : world),
     seconds 7200 <= t1 - last_event_time w ->
     seconds 7200 <= t2 - now1 ->
     disable_calls Watchdog (trace (run [Tick t1 env1 now1; Tick t2 env2 now2] w)) =
       (disable_calls Watchdog (trace w) + 2)%nat).
Proof.
  split; [|split].
  - intros current_time env now w w'. subst w'.
    pose proof (check_inactivity_side_effects current_time env now w) as S.
    pose proof (check_inactivity_clock current_time env now w) as C.
    pose proof (check_inactivity_disable_calls current_time env now w) as D.
    destruct (Z.leb_spec (seconds 7200) (current_time - last_event_time w)).
    + split; [|lia]. intros _. repeat split; [lia | assumption | assumption].
    + split; [lia|]. intros _. lia.
  - intros acts w Hs. apply (watchdog_run_spaced acts w (last_event_time w)); [lia|assumption].
  - intros t1 t2 now1 now2 env1 env2 w H1 H2. cbn [run fold_left exec].
    rewrite !check_inactivity_disable_calls, check_inactivity_clock.
    destruct (Z.leb_spec (seconds 7200) (t1 - last_event_time w)); [|lia].
    destruct (Z.leb_spec (seconds 7200) (t2 - now1)); lia.
Qed.

(** ** The delayed-disable thread on its own *)

Lemma dd_steps_terminal (fuel : nat) (polled : nat -> bool) (env : ssh_env)
    (t : dd_task) :
  dd_pc t = Cancelled \/ dd_pc t = Expired ->
  dd_steps fuel polled env t = (t, []).
Proof.
  intros H. induction fuel as [|fuel IH]; [reflexivity|].
  cbn [dd_steps]. unfold delayed_disable.
  destruct H as [-> | ->]; rewrite IH; reflexivity.
Qed.

Lemma dd_steps_waiting (polled : nat -> bool) (env : ssh_env) (t : dd_task)
    (fuel k : nat) :
  forall e : nat,
    (e + k <= delay_seconds)%nat ->
    (forall j, (e <= j < e + k)%nat -> polled j = false) ->
    dd_steps (2 * k + fuel) polled env (at_pc t (AtLoop e)) =
    (fst (dd_steps fuel polled env (at_pc t (AtLoop (e + k)))),
     (waiting k ++ snd (dd_steps fuel polled env (at_pc t (AtLoop (e + k)))))%list).
Proof.
  induction k as [|k IH]; intros e Hk Hp.
  - cbn [Nat.mul Nat.add waiting app]. rewrite Nat.add_0_r.
    now destruct (dd_steps fuel polled env _).
  - replace (2 * S k + fuel)%nat with (S (S (2 * k + fuel))) by lia.
    cbn [dd_steps]. unfold delayed_disable at 1. cbn [dd_pc at_pc observed].
    destruct (Nat.ltb_spec e delay_seconds); [|lia].
    rewrite (Hp e) by lia.
    unfold delayed_disable at 1. cbn [dd_pc at_pc dd_event dd_wan_streams].
    change (at_pc (at_pc (at_pc t (AtLoop e)) (AtSleep e)) (AtLoop (S e)))
      with (at_pc t (AtLoop (S e))).
    rewrite (IH (S e)) by (intros; try apply Hp; lia).
    replace (S e + k)%nat with (e + S k)%nat by lia.
    reflexivity.
Qed.

Lemma slept_app (a b : list effect) : slept (a ++ b) = slept a + slept b.
Proof.
  induction a as [|e a IH]; [reflexivity|].
  cbn [app]. unfold slept in *. cbn [foldr]. destruct e; lia.
Qed.

Lemma slept_waiting (k : nat) : slept (waiting k) = Z.of_nat k.
Proof.
  induction k as [|k IH]; [reflexivity|].
  cbn [waiting]. unfold slept in *. cbn [foldr]. lia.
Qed.

Lemma commands_waiting (k : nat) : commands (waiting k) = [].
Proof. induction k as [|k IH]; [reflexivity|exact IH]. Qed.

Lemma commands_ssh_call (command : string) (env : ssh_env) :
  commands (snd (ssh_call command env)) = [command].
Proof.
  unfold ssh_call, ssh_execute_command.
  destruct env as [output error|[] e]; cbn; try reflexivity.
  destruct (String.eqb output ""), (String.eqb error ""); reflexivity.
Qed.

(** The first loop test that sees the event set, if there is one. *)
Lemma first_set (polled : nat -> bool) (n : nat) :
  (exists k, (k < n)%nat /\ polled k = true /\ forall j, (j < k)%nat -> polled j = false) \/
  (forall j, (j < n)%nat -> polled j = false).
Proof.
  induction n as [|n [(k & Hk & Hp & Hf)|Hf]].
  - right. intros j Hj. lia.
  - left. exists k. repeat split; [lia | assumption | assumption].
  - destruct (polled n) eqn:E.
    + left. exists n. repeat split; [lia | assumption | assumption].
    + right. intros j Hj. destruct (decide (j = n)) as [->|]; [assumption|].
      apply Hf. lia.
Qed.

Lemma dd_steps_cancelled (event : string) (n : Z) (polled : nat -> bool)
    (env : ssh_env) (k extra : nat) :
  (k < delay_seconds)%nat -> polled k = true ->
  (forall j, (j < k)%nat -> polled j = false) ->
  dd_steps (242 + extra) polled env (new_thread event n) =
  (at_pc (new_thread event n) Cancelled, cancelled_run event n k).
Proof.
  intros Hk Hp Hf. unfold delay_seconds in Hk.
  replace (242 + extra)%nat with (S (2 * k + S (240 - 2 * k + extra))) by lia.
  cbn [dd_steps]. unfold delayed_disable at 1. cbn [dd_pc new_thread].
  change (at_pc _ (AtLoop 0)) with (at_pc (new_thread event n) (AtLoop 0)).
  rewrite (dd_steps_waiting polled env (new_thread event n) _ k 0)
    by (unfold delay_seconds; intros; try apply Hf; lia).
  cbn [Nat.add dd_steps]. unfold delayed_disable at 1 2.
  cbn [dd_pc at_pc observed]. rewrite Hp.
  destruct (Nat.ltb_spec k delay_seconds); [|unfold delay_seconds in *; lia].
  rewrite dd_steps_terminal by (left; reflexivity).
  cbn [fst snd]. unfold cancelled_run. cbn [dd_event dd_wan_streams new_thread at_pc].
  rewrite app_nil_r. reflexivity.
Qed.

Lemma dd_steps_expired (event : string) (n : Z) (polled : nat -> bool)
    (env : ssh_env) (extra : nat) :
  (forall j, (j < delay_seconds)%nat -> polled j = false) ->
  dd_steps (242 + extra) polled env (new_thread event n) =
  (at_pc (new_thread event n) Expired, expired_run event n env).
Proof.
  intros Hf.
  replace (242 + extra)%nat with (S (2 * delay_seconds + S extra))
    by (unfold delay_seconds; lia).
  cbn [dd_steps]. unfold delayed_disable at 1. cbn [dd_pc new_thread].
  change (at_pc _ (AtLoop 0)) with (at_pc (new_thread event n) (AtLoop 0)).
  rewrite (dd_steps_waiting polled env (new_thread event n) _ delay_seconds 0)
    by (intros; try apply Hf; lia).
  cbn [Nat.add dd_steps]. unfold delayed_disable at 1 2.
  cbn [dd_pc at_pc observed].
  destruct (Nat.ltb_spec delay_seconds delay_seconds); [lia|].
  unfold expired_run, outcome_line.
  destruct (ssh_call disable_command env) as [response session].
  rewrite dd_steps_terminal by (right; reflexivity).
  cbn [fst snd].
  cbn [dd_event dd_wan_streams new_thread at_pc].
  rewrite app_nil_r. reflexivity.
Qed.

Lemma slept_ssh_call (command : string) (env : ssh_env) :
  slept (snd (ssh_call command env)) = 0.
Proof.
  unfold ssh_call, ssh_execute_command.
  destruct env as [output error|[] e]; cbn; try reflexivity.
  destruct (String.eqb output ""), (String.eqb error ""); reflexivity.
Qed.

Lemma cancelled_run_facts (event : string) (n : Z) (k : nat) :
  commands (cancelled_run event n k) = [] /\
  slept (cancelled_run event n k) = Z.of_nat k.
Proof.
  unfold cancelled_run. split.
  - rewrite !commands_app, commands_waiting. reflexivity.
  - rewrite !slept_app, slept_waiting. cbn. lia.
Qed.

Lemma expired_run_facts (event : string) (n : Z) (env : ssh_env) :
  commands (expired_run event n env) = [disable_command] /\
  slept (expired_run event n env) = Z.of_nat delay_seconds /\
  last (expired_run event n env) =
    Some (outcome_line event (fst (ssh_call disable_command env))).
Proof.
  unfold expired_run. split; [|split].
  - rewrite !commands_app, commands_waiting, commands_ssh_call.
    unfold outcome_line. destruct (success _); reflexivity.
  - rewrite !slept_app, slept_waiting, slept_ssh_call.
    unfold outcome_line. destruct (success _); cbn; lia.
  - rewrite !app_assoc. apply last_snoc.
Qed.

(** C2: a delayed-disable thread tests [resume_event] once before each of
    at most 120 one-second sleeps.  The first test that finds it set ends
    the thread with no call made; when all 120 tests find it clear the
    thread sends the disable command exactly once, logs whether the call
    succeeded, and ends. *)
Theorem delayed_disable_waits_120_seconds (event : string) (n : Z)
    (polled : nat -> bool) (env : ssh_env) (extra : nat) :
  let t' := fst (dd_steps (242 + extra) polled env (new_thread event n)) in
  let es := snd (dd_steps (242 + extra) polled env (new_thread event n)) in
  (forall k, (k < delay_seconds)%nat -> polled k = true ->
     (forall j, (j < k)%nat -> polled j = false) ->
     dd_pc t' = Cancelled /\ es = cancelled_run event n k) /\
  ((forall j, (j < delay_seconds)%nat -> polled j = false) ->
     dd_pc t' = Expired /\ es = expired_run event n env) /\
  (dd_pc t' = Cancelled \/ dd_pc t' = Expired) /\
  0 <= slept es <= 120 /\
  (dd_pc t' = Cancelled -> commands es = []) /\
  (dd_pc t' = Expired ->
     commands es = [disable_command] /\ slept es = 120 /\
     last es = Some (outcome_line event (fst (ssh_call disable_command env)))).
Proof.
  intros t' es. subst t' es.
  destruct (first_set polled delay_seconds) as [(k & Hk & Hp & Hf)|Hf].
  - rewrite (dd_steps_cancelled event n polled env k extra Hk Hp Hf). cbn [fst snd at_pc dd_pc].
    destruct (cancelled_run_facts event n k) as [C S].
    split; [|split; [|split; [|split; [|split]]]].
    + intros k' Hk' Hp' Hf'. split; [reflexivity|].
      destruct (Nat.lt_trichotomy k k') as [L|[->|L]]; [| reflexivity |].
      * rewrite (Hf' k L) in Hp. discriminate.
      * rewrite (Hf k' L) in Hp'. discriminate.
    + intros Hall. rewrite (Hall k Hk) in Hp. discriminate.
    + left. reflexivity.
    + rewrite S. unfold delay_seconds in Hk. lia.
    + intros _. exact C.
    + discriminate.
  - rewrite (dd_steps_expired event n polled env extra Hf). cbn [fst snd at_pc dd_pc].
    destruct (expired_run_facts event n env) as (C & S & L).
    split; [|split; [|split; [|split; [|split]]]].
    + intros k Hk Hp. rewrite (Hf k Hk) in Hp. discriminate.
    + intros _. split; reflexivity.
    + right. reflexivity.
    + rewrite S. unfold delay_seconds. lia.
    + discriminate.
    + intros _. rewrite S. unfold delay_seconds. repeat split; assumption.
Qed.

(** ** The threads together *)

Lemma webhook_side_effects (req : request) (now : Z) (env : ssh_env) (w : world) :
  side_effects (trace (snd (webhook req now env w))) =
  (side_effects (trace w) ++ map (pair Handler) (handler_effects req now env))%list.
Proof.
  pose proof (webhook_parse_logs req) as L.
  unfold webhook, handler_effects.
  destruct (webhook_parse req) as [[status body|e|event n] logged]; cbn [fst snd] in *.
  - rewrite (side_effects_emit_logs _ _ _ L). now rewrite app_nil_r.
  - rewrite (side_effects_emit_logs _ _ _ L). now rewrite app_nil_r.
  - rewrite webhook_dispatch_side_effects, (side_effects_emit_logs _ _ _ L).
    destruct (_ || _); reflexivity.
Qed.

Lemma webhook_dispatch_resume_event (event : string) (n now : Z) (env : ssh_env)
    (w : world) :
  resume_event (snd (webhook_dispatch event n now env w)) =
  (String.eqb event "playback_start" || String.eqb event "playback_resume")
  || resume_event w.
Proof.
  unfold webhook_dispatch.
  destruct (String.eqb event "playback_start" || String.eqb event "playback_resume").
  - destruct (ssh_call enable_command env) as [[] ?]; reflexivity.
  - destruct (String.eqb event "playback_pause");
      [destruct (1 <? n) | destruct (String.eqb event "playback_stop");
                           [destruct (1 <=? n)|]]; reflexivity.
Qed.

Lemma webhook_resume_event (req : request) (now : Z) (env : ssh_env) (w : world) :
  resume_event (snd (webhook req now env w)) = enabling req || resume_event w.
Proof.
  unfold webhook, enabling.
  destruct (webhook_parse req) as [[status body|e|event n] logged]; cbn [fst snd];
    try reflexivity.
  rewrite webhook_dispatch_resume_event. reflexivity.
Qed.

(** A request leaves the threads there are as they are. *)
Lemma webhook_dispatch_threads (event : string) (n now : Z) (env : ssh_env)
    (w : world) :
  exists new, threads (snd (webhook_dispatch event n now env w)) = (threads w ++ new)%list.
Proof.
  unfold webhook_dispatch.
  destruct (String.eqb event "playback_start" || String.eqb event "playback_resume").
  - exists []. rewrite app_nil_r.
    destruct (ssh_call enable_command env) as [[] ?]; reflexivity.
  - destruct (String.eqb event "playback_pause");
      [destruct (1 <? n) | destruct (String.eqb event "playback_stop");
                           [destruct (1 <=? n)|]];
      first [ exists []; rewrite app_nil_r; reflexivity | eexists; reflexivity ].
Qed.

Lemma webhook_threads (req : request) (now : Z) (env : ssh_env) (w : world) :
  exists new, threads (snd (webhook req now env w)) = (threads w ++ new)%list.
Proof.
  unfold webhook.
  destruct (webhook_parse req) as [[status body|e|event n] logged]; cbn [fst snd];
    try (exists []; rewrite app_nil_r; reflexivity).
  apply (webhook_dispatch_threads event n now env (emit Handler logged w)).
Qed.

Lemma webhook_lookup (req : request) (now : Z) (env : ssh_env) (w : world)
    (i : nat) (t : dd_task) :
  threads w !! i = Some t ->
  threads (snd (webhook req now env w)) !! i = Some t.
Proof.
  intros H. destruct (webhook_threads req now env w) as [new ->].
  now apply lookup_app_l_Some.
Qed.

Lemma check_inactivity_frame (current_time : Z) (env : ssh_env) (now : Z) (w : world) :
  threads (check_inactivity current_time env now w) = threads w /\
  resume_event (check_inactivity current_time env now w) = resume_event w.
Proof.
  unfold check_inactivity. cbn [last_event_time emit].
  destruct (seconds 7200 <=? current_time - last_event_time w); [|split; reflexivity].
  destruct (ssh_call disable_command env) as [response session].
  destruct (success response); split; reflexivity.
Qed.

Lemma side_effects_map (who : thread) (es : list effect) :
  side_effects (map (pair who) es) =
  map (pair who) (omap (fun e => if is_log e then None else Some e) es).
Proof.
  unfold side_effects. induction es as [|e es IH]; [reflexivity|].
  cbn. destruct (is_log e); cbn; now rewrite IH.
Qed.

Lemma delayed_disable_side_effects (who : thread) (signal : bool) (env : ssh_env)
    (t : dd_task) :
  side_effects (map (pair who) (snd (delayed_disable signal env t))) =
  map (pair who) (step_effects signal env (dd_pc t)).
Proof.
  unfold delayed_disable, step_effects.
  pose proof (side_effects_ssh_call who disable_command env) as S.
  destruct (dd_pc t) as [|e|e| |]; try reflexivity.
  destruct (e <? delay_seconds)%nat.
  - destruct signal; reflexivity.
  - destruct (ssh_call disable_command env) as [response session]. cbn [fst snd] in *.
    rewrite map_app, map_app, !side_effects_app, S.
    destruct (success response); reflexivity.
Qed.

Lemma delayed_disable_next (signal : bool) (env : ssh_env) (t : dd_task) :
  dd_pc (fst (fst (delayed_disable signal env t))) = next_pc signal (dd_pc t) /\
  dd_event (fst (fst (delayed_disable signal env t))) = dd_event t /\
  dd_wan_streams (fst (fst (delayed_disable signal env t))) = dd_wan_streams t /\
  snd (fst (delayed_disable signal env t)) = next_signal signal (dd_pc t).
Proof.
  unfold delayed_disable, next_pc, next_signal.
  destruct (dd_pc t) as [|e|e| |] eqn:E; cbn [fst snd at_pc dd_pc dd_event dd_wan_streams];
    try (repeat split; assumption || reflexivity).
  destruct (e <? delay_seconds)%nat; [destruct signal; repeat split|].
  destruct (ssh_call disable_command env). repeat split.
Qed.

Lemma exec_side_effects (a : action) (w : world) :
  side_effects (trace (exec w a)) =
  (side_effects (trace w) ++ map (pair (actor a)) (effects_of a w))%list.
Proof.
  destruct a as [req now env|j env|current_time env now]; cbn [exec actor effects_of].
  - apply webhook_side_effects.
  - unfold step_task. destruct (threads w !! j) as [t|]; [|now rewrite app_nil_r].
    pose proof (delayed_disable_side_effects (Task j) (resume_event w) env t) as S.
    destruct (delayed_disable (resume_event w) env t) as [[t' signal] es].
    cbn [snd] in S. cbn. now rewrite side_effects_app, S.
  - rewrite check_inactivity_side_effects.
    destruct (seconds 7200 <=? current_time - last_event_time w); reflexivity.
Qed.

Lemma exec_resume_event (a : action) (w : world) :
  resume_event (exec w a) =
  match a with
  | Request req _ _ => enabling req || resume_event w
  | Step j _ =>
      match threads w !! j with
      | Some t => next_signal (resume_event w) (dd_pc t)
      | None => resume_event w
      end
  | Tick _ _ _ => resume_event w
  end.
Proof.
  destruct a as [req now env|j env|current_time env now]; cbn [exec].
  - apply webhook_resume_event.
  - unfold step_task. destruct (threads w !! j) as [t|]; [|reflexivity].
    destruct (delayed_disable_next (resume_event w) env t) as (_ & _ & _ & S).
    destruct (delayed_disable (resume_event w) env t) as [[t' signal] es].
    exact S.
  - apply check_inactivity_frame.
Qed.

(** A thread moves only at its own steps. *)
Lemma exec_lookup (a : action) (w : world) (i : nat) (t : dd_task) :
  threads w !! i = Some t ->
  exists t',
    threads (exec w a) !! i = Some t' /\
    dd_event t' = dd_event t /\
    dd_pc t' = if decide (actor a = Task i)
               then next_pc (resume_event w) (dd_pc t) else dd_pc t.
Proof.
  intros H. destruct a as [req now env|j env|current_time env now]; cbn [exec actor].
  - exists t. rewrite (webhook_lookup req now env w i t H).
    destruct (decide (Handler = Task i)); [discriminate|]. now repeat split.
  - unfold step_task. destruct (decide (Task j = Task i)) as [[= ->]|N].
    + rewrite H.
      destruct (delayed_disable_next (resume_event w) env t) as (P & E & _ & _).
      destruct (delayed_disable (resume_event w) env t) as [[t' signal] es].
      exists t'. cbn [fst] in P, E. cbn [threads set_threads]. split; [|now split].
      apply list_lookup_insert_eq. now apply lookup_lt_Some in H.
    + exists t. split; [|now split].
      destruct (threads w !! j) as [tj|]; [|assumption].
      destruct (delayed_disable (resume_event w) env tj) as [[t' signal] es].
      cbn [threads set_threads]. rewrite list_lookup_insert_ne; [assumption|].
      intros ->. now apply N.
  - exists t. destruct (check_inactivity_frame current_time env now w) as [-> _].
    destruct (decide (Watchdog = Task i)); [discriminate|]. now repeat split.
Qed.

Lemma clears_map (who : thread) (es : list effect) :
  clears (map (pair who) es) =
  length (omap (fun e => match e with ClearEvent => Some tt | _ => None end) es).
Proof.
  unfold clears. induction es as [|[] es IH]; cbn in *; auto.
Qed.

Lemma sets_map (who : thread) (es : list effect) :
  sets (map (pair who) es) =
  length (omap (fun e => match e with SetEvent => Some tt | _ => None end) es).
Proof.
  unfold sets. induction es as [|[] es IH]; cbn in *; auto.
Qed.

Lemma by_thread_map (who x : thread) (es : list effect) :
  by_thread x (map (pair who) es) = if decide (who = x) then es else [].
Proof.
  unfold by_thread. induction es as [|e es IH]; cbn.
  - now destruct (decide (who = x)).
  - rewrite IH. now destruct (decide (who = x)).
Qed.

Lemma exec_clears (a : action) (w : world) :
  clears (trace (exec w a)) =
  (clears (trace w) + clears (map (pair (actor a)) (effects_of a w)))%nat.
Proof.
  now rewrite <- clears_side_effects, exec_side_effects, clears_app, clears_side_effects.
Qed.

Lemma exec_sets (a : action) (w : world) :
  sets (trace (exec w a)) =
  (sets (trace w) + sets (map (pair (actor a)) (effects_of a w)))%nat.
Proof.
  now rewrite <- sets_side_effects, exec_side_effects, sets_app, sets_side_effects.
Qed.

Lemma exec_disable_calls (a : action) (w : world) (x : thread) :
  disable_calls x (trace (exec w a)) =
  (disable_calls x (trace w) +
   disable_calls x (map (pair (actor a)) (effects_of a w)))%nat.
Proof.
  now rewrite <- disable_calls_side_effects, exec_side_effects, disable_calls_app,
    disable_calls_side_effects.
Qed.

Lemma run_cons (a : action) (acts : list action) (w : world) :
  run (a :: acts) w = run acts (exec w a).
Proof. reflexivity. Qed.

Lemma run_app (acts more : list action) (w : world) :
  run (acts ++ more) w = run more (run acts w).
Proof. apply fold_left_app. Qed.

Lemma run_clears_mono (acts : list action) :
  forall w, (clears (trace w) <= clears (trace (run acts w)))%nat.
Proof.
  induction acts as [|a acts IH]; intros w; [reflexivity|].
  rewrite run_cons. specialize (IH (exec w a)). rewrite exec_clears in IH. lia.
Qed.

Lemma run_sets_mono (acts : list action) :
  forall w, (sets (trace w) <= sets (trace (run acts w)))%nat.
Proof.
  induction acts as [|a acts IH]; intros w; [reflexivity|].
  rewrite run_cons. specialize (IH (exec w a)). rewrite exec_sets in IH. lia.
Qed.

Lemma disable_calls_map_other (who x : thread) (es : list effect) :
  who <> x -> disable_calls x (map (pair who) es) = O.
Proof.
  intros N. unfold disable_calls. rewrite by_thread_map.
  now destruct (decide (who = x)).
Qed.

Lemma disable_calls_map_own (x : thread) (es : list effect) :
  disable_calls x (map (pair x) es) =
  length (omap (fun c => if String.eqb c disable_command then Some tt else None)
            (commands es)).
Proof.
  unfold disable_calls. rewrite by_thread_map.
  now destruct (decide (x = x)).
Qed.

Lemma signalled_step (i r : nat) (a : action) (w : world) :
  signalled i r w ->
  clears (trace (exec w a)) = clears (trace w) ->
  signalled i (r - if decide (actor a = Task i) then 1 else 0) (exec w a) /\
  disable_calls (Task i) (trace (exec w a)) = disable_calls (Task i) (trace w).
Proof.
  intros (F & t & L & P) C.
  rewrite exec_clears, clears_map in C.
  destruct (exec_lookup a w i t L) as (t' & L' & _ & P').
  rewrite F in P'. split; [split; [|exists t'; split; [exact L'|]]|].
  - rewrite exec_resume_event.
    destruct a as [req now env|j env|current_time env now]; cbn [effects_of] in *.
    + rewrite F. apply orb_true_r.
    + destruct (threads w !! j) as [tj|]; [|exact F].
      destruct (dd_pc tj); cbn in C; try exact F. lia.
    + exact F.
  - rewrite P'. destruct (decide (actor a = Task i)).
    + destruct P as [->|[A R]]; [left; reflexivity|].
      destruct (dd_pc t) as [|k|k| |]; try discriminate; cbn in A, R |- *.
      * rewrite A. left. reflexivity.
      * right. split; [exact A | lia].
    + rewrite Nat.sub_0_r. exact P.
  - rewrite exec_disable_calls.
    destruct (decide (actor a = Task i)) as [E|N];
      [|rewrite (disable_calls_map_other _ _ _ N); lia].
    destruct a as [req now env|j env|current_time env now]; try discriminate.
    injection E as ->. cbn [effects_of actor]. rewrite L, F, disable_calls_map_own.
    destruct P as [->|[A R]]; [cbn; lia|].
    destruct (dd_pc t) as [|k|k| |]; try discriminate; cbn in A |- *.
    + rewrite A. cbn. lia.
    + lia.
Qed.

Lemma steps_of_cons (i : nat) (a : action) (acts : list action) :
  steps_of i (a :: acts) =
  ((if decide (actor a = Task i) then 1 else 0) + steps_of i acts)%nat.
Proof.
  unfold steps_of. destruct a as [| j env |]; cbn; try reflexivity.
  destruct (decide (j = i)) as [->|N].
  - destruct (decide (Task i = Task i)); [reflexivity|contradiction].
  - destruct (decide (Task j = Task i)) as [[= E]|]; [contradiction|reflexivity].
Qed.

Lemma signalled_run (i : nat) (acts : list action) :
  forall (r : nat) (w : world),
    signalled i r w ->
    clears (trace (run acts w)) = clears (trace w) ->
    signalled i (r - steps_of i acts) (run acts w) /\
    disable_calls (Task i) (trace (run acts w)) = disable_calls (Task i) (trace w).
Proof.
  induction acts as [|a acts IH]; intros r w S C.
  - cbn. rewrite Nat.sub_0_r. now split.
  - rewrite run_cons in *. rewrite steps_of_cons.
    pose proof (run_clears_mono acts (exec w a)) as M1.
    pose proof (exec_clears a w) as M2.
    destruct (signalled_step i r a w S) as [S1 D1]; [lia|].
    destruct (IH _ _ S1) as [S2 D2]; [lia|].
    split; [|lia].
    replace (r - ((if decide (actor a = Task i) then 1 else 0) + steps_of i acts))%nat
      with (r - (if decide (actor a = Task i) then 1 else 0) - steps_of i acts)%nat
      by lia.
    exact S2.
Qed.

(** A cancelled thread stays cancelled and calls nothing, whatever runs. *)
Lemma cancelled_forever (i : nat) (acts : list action) :
  forall (w : world) (t : dd_task),
    threads w !! i = Some t -> dd_pc t = Cancelled ->
    (exists t', threads (run acts w) !! i = Some t' /\ dd_pc t' = Cancelled) /\
    disable_calls (Task i) (trace (run acts w)) = disable_calls (Task i) (trace w).
Proof.
  induction acts as [|a acts IH]; intros w t L P.
  - split; [exists t; now split | reflexivity].
  - rewrite run_cons.
    destruct (exec_lookup a w i t L) as (t' & L' & _ & P').
    assert (P'' : dd_pc t' = Cancelled).
    { rewrite P', P. now destruct (decide _). }
    destruct (IH _ _ L' P'') as [S D]. split; [exact S|].
    rewrite D, exec_disable_calls.
    destruct (decide (actor a = Task i)) as [E|N];
      [|rewrite (disable_calls_map_other _ _ _ N); lia].
    destruct a as [req now env|j env|current_time env now]; try discriminate.
    injection E as ->. cbn [effects_of actor].
    rewrite L, P, disable_calls_map_own. cbn. lia.
Qed.

(** What the code does keep of the cancellation: once a start or resume
    event has set [resume_event], a waiting thread that still has a loop
    test to make sends no disable command for as long as no thread runs the
    [resume_event.clear()] of its entry; its next loop test, two steps of
    its own away at most, cancels it, and a cancelled thread never calls,
    whatever runs afterwards. *)
Theorem enable_cancels_waiting_threads (req : request) (now : Z) (env : ssh_env)
    (w0 : world) (i : nat) (t : dd_task) (acts more : list action) :
  enabling req = true ->
  threads w0 !! i = Some t ->
  poll_ahead (dd_pc t) = true ->
  let w := snd (webhook req now env w0) in
  let w' := run acts w in
  clears (trace w') = clears (trace w) ->
  disable_calls (Task i) (trace w') = disable_calls (Task i) (trace w0) /\
  (exists t', threads w' !! i = Some t' /\
     (dd_pc t' = Cancelled \/ poll_ahead (dd_pc t') = true)) /\
  ((2 <= steps_of i acts)%nat ->
     (exists t', threads w' !! i = Some t' /\ dd_pc t' = Cancelled) /\
     disable_calls (Task i) (trace (run more w')) = disable_calls (Task i) (trace w0)).
Proof.
  intros E L A w w' C. subst w w'.
  set (w := snd (webhook req now env w0)) in *.
  assert (S : signalled i 2 w).
  { split.
    - unfold w. rewrite webhook_resume_event, E. reflexivity.
    - exists t. split; [now apply webhook_lookup|]. right. split; [exact A|].
      destruct (dd_pc t); cbn; lia. }
  assert (D0 : disable_calls (Task i) (trace w) = disable_calls (Task i) (trace w0)).
  { change w with (exec w0 (Request req now env)).
    rewrite exec_disable_calls, disable_calls_map_other; [lia | discriminate]. }
  destruct (signalled_run i acts 2 w S C) as [(F & t' & L' & P') D].
  split; [lia|]. split.
  - exists t'. split; [exact L'|]. tauto.
  - intros H2. assert (P'' : dd_pc t' = Cancelled).
    { destruct P' as [P'|[A' R']]; [exact P'|].
      destruct (dd_pc t'); try discriminate; cbn in R'; lia. }
    split; [exists t'; now split|].
    destruct (cancelled_forever i more _ _ L' P'') as [_ D']. lia.
Qed.

Lemma slept_side_effects (x : thread) (tr : list (thread * effect)) :
  slept (by_thread x (side_effects tr)) = slept (by_thread x tr).
Proof.
  unfold slept, side_effects, by_thread.
  induction tr as [|[y e] tr IH]; [reflexivity|].
  destruct e; cbn in *; try exact IH;
    destruct (decide (y = x)); cbn; try exact IH; now f_equal.
Qed.

Lemma exec_slept (a : action) (w : world) (x : thread) :
  slept (by_thread x (trace (exec w a))) =
  slept (by_thread x (trace w)) +
  slept (by_thread x (map (pair (actor a)) (effects_of a w))).
Proof.
  now rewrite <- slept_side_effects, exec_side_effects, by_thread_app, slept_app,
    slept_side_effects.
Qed.

Lemma not_enabling_of_no_set (req : request) (now : Z) (env : ssh_env) :
  sets (map (pair Handler) (handler_effects req now env)) = O ->
  enabling req = false.
Proof.
  rewrite sets_map. unfold handler_effects, enabling.
  destruct (fst (webhook_parse req)) as [| |event n]; try reflexivity.
  destruct (_ || _); [discriminate|reflexivity].
Qed.

Lemma undisturbed_step (i c d : nat) (s : Z) (a : action) (w : world) :
  undisturbed i c d s w ->
  sets (trace (exec w a)) = sets (trace w) ->
  undisturbed i (c + if decide (actor a = Task i) then 1 else 0) d s (exec w a).
Proof.
  intros (t & L & R & M & F & D & Z) S.
  rewrite exec_sets in S.
  destruct (exec_lookup a w i t L) as (t' & L' & _ & P').
  pose proof (exec_resume_event a w) as F'.
  pose proof (exec_disable_calls a w (Task i)) as D'.
  pose proof (exec_slept a w (Task i)) as Z'.
  exists t'. split; [exact L'|]. rewrite P', D', Z', D, Z. clear L' P' D' Z'.
  destruct (decide (actor a = Task i)) as [E|N].
  - destruct a as [req now env|j env|current_time env now]; try discriminate.
    injection E as ->. cbn [effects_of actor] in *. rewrite L in *.
    rewrite disable_calls_map_own, by_thread_map.
    destruct (decide (Task i = Task i)); [|contradiction].
    rewrite F'. clear F'.
    destruct (dd_pc t) as [|k|k| |]; cbn [in_range remaining elapsed_of next_pc
      next_signal step_effects] in *; try contradiction.
    + repeat split; try (intros; reflexivity); cbn; unfold delay_seconds in *; lia.
    + rewrite (F ltac:(discriminate)).
      destruct (Nat.ltb_spec k delay_seconds).
      * repeat split; try (intros; reflexivity); cbn; unfold delay_seconds in *; lia.
      * assert (k = delay_seconds) as -> by lia.
        repeat split; try (intros; apply F; discriminate).
        -- cbn. unfold delay_seconds. lia.
        -- unfold commands. cbn [omap option_bind list_omap]. rewrite String.eqb_refl. cbn. lia.
        -- cbn. lia.
    + repeat split; try (intros; apply F; discriminate);
        cbn; unfold delay_seconds in *; lia.
    + repeat split; try (intros; apply F; discriminate); cbn; lia.
  - rewrite (disable_calls_map_other _ _ _ N), by_thread_map.
    destruct (decide (actor a = Task i)); [contradiction|].
    rewrite Nat.add_0_r. repeat split; try assumption; try lia; [|cbn; lia].
    intros NS. specialize (F NS). rewrite F' , F.
    destruct a as [req now env|j env|current_time env now]; cbn [effects_of actor] in *.
    + rewrite (not_enabling_of_no_set req now env); [reflexivity|lia].
    + destruct (threads w !! j) as [tj|]; [|reflexivity]. now destruct (dd_pc tj).
    + reflexivity.
Qed.

Lemma undisturbed_run (i d : nat) (s : Z) (acts : list action) :
  forall (c : nat) (w : world),
    undisturbed i c d s w ->
    sets (trace (run acts w)) = sets (trace w) ->
    undisturbed i (c + steps_of i acts) d s (run acts w).
Proof.
  induction acts as [|a acts IH]; intros c w U S.
  - cbn. now rewrite Nat.add_0_r.
  - rewrite run_cons in *. rewrite steps_of_cons.
    pose proof (run_sets_mono acts (exec w a)) as M1.
    pose proof (exec_sets a w) as M2.
    pose proof (undisturbed_step i c d s a w U ltac:(lia)) as U1.
    pose proof (IH _ _ U1 ltac:(lia)) as U2.
    now rewrite Nat.add_assoc.
Qed.

(** A pause or stop event under its threshold appends the new thread. *)
Lemma webhook_schedules (req : request) (event : string) (n : Z)
    (logged : list effect) (now : Z) (env : ssh_env) (w : world) :
  webhook_parse req = (Accepted event n, logged) ->
  (event = "playback_pause" /\ n <= 1) \/ (event = "playback_stop" /\ n < 1) ->
  threads (snd (webhook req now env w)) = (threads w ++ [new_thread event n])%list.
Proof.
  intros H S. rewrite (webhook_accepted _ _ _ _ _ _ _ H). unfold webhook_dispatch.
  destruct S as [[-> Hn]|[-> Hn]]; cbn [String.eqb Ascii.eqb Bool.eqb orb].
  - destruct (Z.ltb_spec 1 n); [lia|reflexivity].
  - destruct (Z.leb_spec 1 n); [lia|reflexivity].
Qed.

(** C6: a delayed-disable thread begins by clearing [resume_event].  So a
    thread started by a pause or stop event is not cancelled by a start or
    resume event handled before: whatever [resume_event] held, if nothing
    sets it during the thread's wait, the thread, once it has had its 242
    steps (the entry, 120 loop tests, 120 sleeps, the tail), has slept 120
    seconds and sent the disable command.  And the clear takes a pending
    cancellation away from an older thread that had not yet seen it. *)
Theorem entry_clears_resume_event :
  (forall (signal : bool) (env : ssh_env) (t : dd_task),
     dd_pc t = AtStart ->
     delayed_disable signal env t =
       (at_pc t (AtLoop 0), false,
        [Log INFO (MsgDelayStarting (dd_event t) (dd_wan_streams t)); ClearEvent])) /\
  (forall (req : request) (event : string) (n : Z) (logged : list effect)
          (now : Z) (env : ssh_env) (w0 : world) (acts : list action),
     webhook_parse req = (Accepted event n, logged) ->
     (event = "playback_pause" /\ n <= 1) \/ (event = "playback_stop" /\ n < 1) ->
     let w := snd (webhook req now env w0) in
     let i := length (threads w0) in
     let w' := run acts w in
     sets (trace w') = sets (trace w) ->
     threads w !! i = Some (new_thread event n) /\
     exists t',
       threads w' !! i = Some t' /\ dd_pc t' <> Cancelled /\
       ((242 <= steps_of i acts)%nat ->
          dd_pc t' = Expired /\
          disable_calls (Task i) (trace w') = S (disable_calls (Task i) (trace w0)) /\
          slept (by_thread (Task i) (trace w')) =
            slept (by_thread (Task i) (trace w0)) + 120)) /\
  (forall (w : world) (j k : nat) (tj tk : dd_task) (elapsed : nat)
          (env1 env2 : ssh_env),
     j <> k ->
     threads w !! j = Some tj -> dd_pc tj = AtStart ->
     threads w !! k = Some tk -> dd_pc tk = AtLoop elapsed ->
     (elapsed < delay_seconds)%nat ->
     resume_event w = true ->
     (exists t', threads (run [Step k env2] w) !! k = Some t' /\ dd_pc t' = Cancelled) /\
     (exists t', threads (run [Step j env1; Step k env2] w) !! k = Some t' /\
                 dd_pc t' = AtSleep elapsed)).
Proof.
  split; [|split].
  - intros signal env t P. unfold delayed_disable. rewrite P. reflexivity.
  - intros req event n logged now env w0 acts H Sc w i w' NS. subst w' i.
    assert (T : threads w = (threads w0 ++ [new_thread event n])%list)
      by (apply (webhook_schedules req event n logged now env w0 H Sc)).
    assert (L : threads w !! length (threads w0) = Some (new_thread event n)).
    { rewrite T. apply list_lookup_middle. reflexivity. }
    split; [exact L|].
    set (i := length (threads w0)) in *.
    assert (D0 : disable_calls (Task i) (trace w) = disable_calls (Task i) (trace w0)).
    { change w with (exec w0 (Request req now env)).
      rewrite exec_disable_calls, disable_calls_map_other; [lia | discriminate]. }
    assert (Z0 : slept (by_thread (Task i) (trace w)) =
                 slept (by_thread (Task i) (trace w0))).
    { change w with (exec w0 (Request req now env)).
      rewrite exec_slept, by_thread_map. cbn [actor].
      destruct (decide (Handler = Task i)); [discriminate|]. cbn. lia. }
    assert (U : undisturbed i 0 (disable_calls (Task i) (trace w0))
                  (slept (by_thread (Task i) (trace w0))) w).
    { exists (new_thread event n). cbn [dd_pc new_thread remaining elapsed_of in_range].
      repeat split; try lia; [exact L | congruence]. }
    destruct (undisturbed_run i _ _ acts 0 w U NS) as (t' & L' & R & M & _ & D & Z).
    exists t'. split; [exact L'|]. split.
    + intros C. rewrite C in R. exact R.
    + intros Hs. cbn [Nat.add] in M.
      assert (P : dd_pc t' = Expired).
      { destruct (dd_pc t') as [|k|k| |]; cbn in R, M; try reflexivity;
          try contradiction; unfold delay_seconds in *; lia. }
      rewrite P in D, Z. cbn [elapsed_of] in Z. unfold delay_seconds in Z.
      repeat split; [exact P | lia | lia].
  - intros w j k tj tk elapsed env1 env2 N Lj Pj Lk Pk He F. split.
    + destruct (exec_lookup (Step k env2) w k tk Lk) as (t' & L' & _ & P').
      exists t'. split; [exact L'|]. rewrite P', Pk, F. cbn [actor next_pc].
      destruct (decide (Task k = Task k)); [|contradiction].
      now destruct (Nat.ltb_spec elapsed delay_seconds); [|lia].
    + rewrite run_cons.
      destruct (exec_lookup (Step j env1) w k tk Lk) as (t1 & L1 & _ & P1).
      pose proof (exec_resume_event (Step j env1) w) as F1. cbn beta iota in F1.
      rewrite Lj, Pj in F1. cbn [next_signal] in F1.
      cbn [actor] in P1.
      destruct (decide (Task j = Task k)) as [[= E]|_]; [contradiction|].
      destruct (exec_lookup (Step k env2) _ k t1 L1) as (t' & L' & _ & P').
      exists t'. split; [exact L'|]. rewrite P', P1, Pk, F1. cbn [actor next_pc].
      destruct (decide (Task k = Task k)); [|contradiction].
      now destruct (Nat.ltb_spec elapsed delay_seconds); [|lia].
Qed.

(** ** The log formatter *)

Lemma first_event_found (lowered : string) (items : list (string * string)) :
  (exists event, event ∈ map fst items /\ is_substring event lowered = true) ->
  exists color, color ∈ map snd items /\ first_event lowered items = Some color.
Proof.
  induction items as [|[event color] items IH]; intros (e & He & Hs).
  - inversion He.
  - cbn [first_event]. destruct (is_substring event lowered) eqn:E.
    + exists color. split; [left|reflexivity].
    + cbn in He. apply elem_of_cons in He as [->|He]; [congruence|].
      destruct IH as (c & Hc & Hf); [eauto|].
      exists c. split; [right; exact Hc | exact Hf].
Qed.

Lemma first_event_missing (lowered : string) (items : list (string * string)) :
  (forall event, event ∈ map fst items -> is_substring event lowered = false) ->
  first_event lowered items = None.
Proof.
  induction items as [|[event color] items IH]; intros H; [reflexivity|].
  cbn [first_event]. rewrite (H event) by left.
  apply IH. intros e He. apply H. right. exact He.
Qed.

Lemma first_event_first (lowered event color : string)
    (before after : list (string * string)) :
  (forall e, e ∈ map fst before -> is_substring e lowered = false) ->
  is_substring event lowered = true ->
  first_event lowered (before ++ (event, color) :: after) = Some color.
Proof.
  intros B E. induction before as [|[e c] before IH]; cbn [app first_event].
  - rewrite E. reflexivity.
  - rewrite (B e) by left. apply IH. intros e' He'. apply B. right. exact He'.
Qed.

(** X1: a line that names a playback event is coloured by that event
    whatever its level, so an error about an event is never shown in the
    red of errors; of several events named, the first in the order start,
    resume, pause, stop gives the colour.  A line that names none is
    coloured by its level, and by the reset code when the level has no
    colour.  The line itself is passed through unchanged between the
    colour and the reset code. *)
Theorem event_colour_hides_level (log_message : string) :
  ((exists event, event ∈ map fst EVENT_COLORS /\
                  is_substring event (str_lower log_message) = true) ->
     (exists color, color ∈ map snd EVENT_COLORS /\
        forall levelname, format levelname log_message = color ++ log_message ++ RESET) /\
     String.prefix (esc "[91m") (format "ERROR" log_message) = false) /\
  (forall before event color after levelname,
     EVENT_COLORS = (before ++ (event, color) :: after)%list ->
     (forall e, e ∈ map fst before -> is_substring e (str_lower log_message) = false) ->
     is_substring event (str_lower log_message) = true ->
     format levelname log_message = color ++ log_message ++ RESET) /\
  ((forall event, event ∈ map fst EVENT_COLORS ->
                  is_substring event (str_lower log_message) = false) ->
     format "INFO" log_message = esc "[92m" ++ log_message ++ RESET /\
     format "WARNING" log_message = esc "[93m" ++ log_message ++ RESET /\
     format "ERROR" log_message = esc "[91m" ++ log_message ++ RESET /\
     forall levelname, dict_get levelname COLORS = None ->
       format levelname log_message = RESET ++ log_message ++ RESET).
Proof.
  split; [|split].
  - intros H. destruct (first_event_found _ _ H) as (color & Hc & Hf).
    assert (F : forall levelname,
               format levelname log_message = color ++ log_message ++ RESET).
    { intros levelname. unfold format. rewrite Hf. reflexivity. }
    split; [exists color; split; assumption|].
    rewrite F. cbn in Hc.
    repeat (apply elem_of_cons in Hc as [->|Hc]; [reflexivity|]).
    inversion Hc.
  - intros before event color after levelname E B H. unfold format.
    rewrite E, (first_event_first _ _ _ _ _ B H). reflexivity.
  - intros H. unfold format. rewrite (first_event_missing _ _ H).
    repeat split. intros levelname ->. reflexivity.
Qed.

(** ** The module's start *)

(** X2: the module refuses to start, with a ValueError, exactly when
    [WEBHOOK_TOKEN] is unset or empty or [FORTIGATE_PORT] is set to text
    that is no integer; when it starts, the token is the variable's value
    and is not empty, and the path is [/webhook/] followed by the UUID, or
    by [default] when [WEBHOOK_UUID] is unset or empty. *)
Theorem startup_needs_token (environ : list (string * string)) :
  (forall e, fst (startup environ) = Raise e ->
     e = ValueError /\
     (env_truthy (dict_get "WEBHOOK_TOKEN" environ) = false \/
      exists s, dict_get "FORTIGATE_PORT" environ = Some s /\ int_of_str s = None)) /\
  (env_truthy (dict_get "WEBHOOK_TOKEN" environ) = false \/
   (exists s, dict_get "FORTIGATE_PORT" environ = Some s /\ int_of_str s = None) ->
     fst (startup environ) = Raise ValueError) /\
  (forall s, fst (startup environ) = Ok s ->
     token s <> "" /\
     dict_get "WEBHOOK_TOKEN" environ = Some (token s) /\
     (forall uuid, dict_get "WEBHOOK_UUID" environ = Some uuid -> uuid <> "" ->
        path s = "/webhook/" ++ uuid) /\
     (env_truthy (dict_get "WEBHOOK_UUID" environ) = false ->
        path s = "/webhook/default")).
Proof.
  unfold startup, read_port.
  destruct (dict_get "WEBHOOK_TOKEN" environ) as [tok|] eqn:T; cbn [env_truthy negb].
  2:{ split; [|split]; cbn [fst]; [intros e [= <-]; auto | auto | discriminate]. }
  destruct (String.eqb_spec tok "") as [->|NE]; cbn [negb].
  { split; [|split]; cbn [fst]; [intros e [= <-]; auto | auto | discriminate]. }
  destruct (dict_get "FORTIGATE_PORT" environ) as [p|] eqn:P.
  - destruct (int_of_str p) as [n|] eqn:I; cbn [fst].
    + split; [discriminate|]. split.
      * intros [?|(s & [= <-] & ?)]; congruence.
      * intros s [= <-]. cbn [token path default]. repeat split; try assumption.
        -- intros uuid -> Hu. cbn [env_truthy default].
           destruct (String.eqb_spec uuid ""); [contradiction|reflexivity].
        -- intros ->. reflexivity.
    + split; [|split; [auto|discriminate]].
      intros e [= <-]. split; [reflexivity|]. right. eauto.
  - cbn [fst]. split; [discriminate|]. split.
    + intros [?|(s & ? & ?)]; congruence.
    + intros s [= <-]. cbn [token path default]. repeat split; try assumption.
      * intros uuid -> Hu. cbn [env_truthy default].
        destruct (String.eqb_spec uuid ""); [contradiction|reflexivity].
      * intros ->. reflexivity.
Qed.

(** ** The replies of the handler *)

Lemma webhook_parse_rejected (req : request) (status : Z) (body : payload) :
  fst (webhook_parse req) = Rejected status body ->
  (status = 401 /\ unauthorized (header_token req) = true) \/
  (status = 400 /\ unauthorized (header_token req) = false).
Proof.
  unfold webhook_parse. destruct (unauthorized _); cbn [fst].
  - intros [= <- _]. left. split; reflexivity.
  - destruct (invalid_request _) as [[]|]; cbn [fst]; try discriminate.
    + intros [= <- _]. right. split; reflexivity.
    + destruct (_ ≫= _); try discriminate.
      destruct (read_wan_streams _) as [[]|]; discriminate.
Qed.

Lemma webhook_parse_authorized (req : request) :
  unauthorized (header_token req) = true ->
  fst (webhook_parse req) = Rejected 401 (ErrorBody "Unauthorized").
Proof. intros U. unfold webhook_parse. rewrite U. reflexivity. Qed.

(** The reply to a request that gets past line 169. *)
Lemma webhook_dispatch_reply (event : string) (n now : Z) (env : ssh_env)
    (w : world) :
  (fst (fst (webhook_dispatch event n now env w)) = 200 /\
   (String.eqb event "playback_start" || String.eqb event "playback_resume" = true ->
    success (fst (ssh_call enable_command env)) = true)) \/
  (fst (fst (webhook_dispatch event n now env w)) = 500 /\
   String.eqb event "playback_start" || String.eqb event "playback_resume" = true /\
   fst (ssh_call enable_command env) = RespFail (resp_error (fst (ssh_call enable_command env))) /\
   snd (fst (webhook_dispatch event n now env w)) =
     ErrorBody (resp_error (fst (ssh_call enable_command env)))).
Proof.
  unfold webhook_dispatch.
  destruct (String.eqb event "playback_start" || String.eqb event "playback_resume").
  - destruct (ssh_call enable_command env) as [[output error|error] session]; cbn.
    + left. auto.
    + right. auto.
  - left. split; [|discriminate].
    destruct (String.eqb event "playback_pause");
      [destruct (1 <? n) | destruct (String.eqb event "playback_stop");
                           [destruct (1 <=? n)|]]; reflexivity.
Qed.

Lemma webhook_dispatch_clock (event : string) (n now : Z) (env : ssh_env) (w : world) :
  last_event_time (snd (webhook_dispatch event n now env w)) = now.
Proof.
  unfold webhook_dispatch.
  destruct (String.eqb event "playback_start" || String.eqb event "playback_resume").
  - destruct (ssh_call enable_command env) as [[] ?]; reflexivity.
  - destruct (String.eqb event "playback_pause");
      [destruct (1 <? n) | destruct (String.eqb event "playback_stop");
                           [destruct (1 <=? n)|]]; reflexivity.
Qed.



(** With a token that is not empty, a header is refused exactly when it is
    not the token. *)
Lemma unauthorized_iff (auth_token : option string) :
  WEBHOOK_TOKEN <> "" ->
  unauthorized auth_token = true <-> auth_token <> Some WEBHOOK_TOKEN.
Proof.
  intros NE. unfold unauthorized. destruct auth_token as [t|]; [|split; congruence].
  destruct (String.eqb_spec t WEBHOOK_TOKEN) as [->|N].
  - destruct (String.eqb_spec WEBHOOK_TOKEN ""); [contradiction|].
    cbn. split; congruence.
  - rewrite orb_true_r. split; congruence.
Qed.

Lemma webhook_status_401 (req : request) (now : Z) (env : ssh_env) (w : world) :
  fst (fst (webhook req now env w)) = 401 <-> unauthorized (header_token req) = true.
Proof.
  split.
  - unfold webhook. pose proof (webhook_parse_rejected req) as R.
    destruct (webhook_parse req) as [[status body|e|event n] logged]; cbn [fst snd] in *.
    + intros ->. destruct (R 401 body eq_refl) as [[_ U]|[? _]]; [exact U|discriminate].
    + discriminate.
    + destruct (webhook_dispatch_reply event n now env (emit Handler logged w))
        as [[S _]|(S & _)]; rewrite S; discriminate.
  - intros U. unfold webhook. pose proof (webhook_parse_authorized req U) as P.
    destruct (webhook_parse req) as [p logged]. cbn [fst] in P. subst p. reflexivity.
Qed.

(** X5: the handler acts on a request only if it carries the token and its
    body is a JSON object whose [event] is a string; the event it acts on
    is that string lowered, and the stream count is [int] of the
    [wan_streams] entry, or 0 when there is none or [int] raises
    ValueError or TypeError.  Every such request is acted on. *)
Theorem accepted_requests (req : request) (event : string) (n : Z) :
  fst (webhook_parse req) = Accepted event n <->
  unauthorized (header_token req) = false /\
  exists kvs s,
    get_json req = JObj kvs /\
    assoc "event" kvs = Some (JStr s) /\
    event = str_lower s /\
    match assoc "wan_streams" kvs with
    | None => n = 0
    | Some v =>
        py_int v = Ok n \/
        (n = 0 /\ (py_int v = Raise ValueError \/ py_int v = Raise TypeError))
    end.
Proof.
  unfold webhook_parse. destruct (unauthorized _).
  { cbn [fst]. split; [discriminate | intros [? _]; discriminate]. }
  split.
  - intros H. split; [reflexivity|].
    destruct (get_json req) as [| | | | |xs|kvs] eqn:J;
      try (unfold invalid_request in H; cbn in H;
           repeat match type of H with
                  | context [if ?c then _ else _] => destruct c; cbn in H
                  | context [match ?f with FFinite _ _ => _ | _ => _ end] =>
                      destruct f; cbn in H
                  end; discriminate).
    exists kvs. unfold invalid_request, read_wan_streams in H. cbn in H.
    destruct (negb (length kvs =? 0)%nat); cbn in H; [|discriminate].
    destruct (assoc "event" kvs) as [v|] eqn:A; cbn in H; [|discriminate].
    destruct v as [| | | |s| |]; cbn in H; try discriminate.
    exists s. split; [reflexivity|]. split; [reflexivity|].
    destruct (assoc "wan_streams" kvs) as [v|]; cbn in H.
    + destruct (py_int v) as [k|[]] eqn:I; cbn in H; try discriminate;
        injection H as <- <-; auto.
    + injection H as <- <-. auto.
  - intros (_ & kvs & s & -> & A & -> & W).
    unfold invalid_request, read_wan_streams. cbn.
    assert (L : (length kvs =? 0)%nat = false) by (destruct kvs; [discriminate|reflexivity]).
    rewrite L, A. cbn.
    destruct (assoc "wan_streams" kvs) as [v|]; cbn.
    + destruct W as [->|[-> [->| ->]]]; reflexivity.
    + subst n. reflexivity.
Qed.

Lemma startup_token_not_empty (environ : list (string * string)) (s : settings) :
  fst (startup environ) = Ok s -> token s <> "".
Proof.
  unfold startup.
  destruct (dict_get "WEBHOOK_TOKEN" environ) as [tok|]; cbn [env_truthy negb fst];
    [|discriminate].
  destruct (String.eqb_spec tok "") as [->|NE]; cbn [negb fst]; [discriminate|].
  destruct (read_port environ); cbn [fst]; [|discriminate].
  intros [= <-]. exact NE.
Qed.

(** ** What [ssh_execute_command] calls a success *)

(** X10: [ssh_execute_command] reports a failure only when the session
    raised.  A command the device answers on its error stream counts as a
    success: the error text goes to the log at level ERROR, and the
    handler of a start or resume event answers 200 with the output and
    without it. *)
Theorem stderr_is_not_failure (command : string) :
  (forall env,
     success (fst (ssh_execute_command command env)) = true <->
     exists output error, env = SshReturns output error) /\
  (forall output error,
     error <> "" ->
     fst (ssh_execute_command command (SshReturns output error)) = RespOk output error /\
     Log ERROR (MsgSshCommandError error) ∈
       snd (ssh_execute_command command (SshReturns output error))) /\
  (forall req event n logged now output error w,
     webhook_parse req = (Accepted event n, logged) ->
     event = "playback_start" \/ event = "playback_resume" ->
     fst (webhook req now (SshReturns output error) w) =
       (200, MessageOutputBody (ExecutedSuccessfully event) output)).
Proof.
  split; [|split].
  - intros [output error|stage e]; cbn; split; eauto; try discriminate.
    intros (? & ? & ?). discriminate.
  - intros output error NE. split; [reflexivity|]. cbn.
    destruct (String.eqb_spec error ""); [contradiction|].
    destruct (String.eqb output ""); cbn; repeat constructor.
  - intros req event n logged now output error w H E.
    rewrite (webhook_accepted _ _ _ _ _ _ _ H). unfold webhook_dispatch.
    replace (String.eqb event "playback_start" || String.eqb event "playback_resume")
      with true by (destruct E as [-> | ->]; reflexivity).
    reflexivity.
Qed.

(** ** More on the threads together *)

Lemma attributed_side_effects (tr : list (thread * effect)) :
  Forall attributed (side_effects tr) <-> Forall attributed tr.
Proof.
  unfold side_effects. induction tr as [|[who e] tr IH]; [reflexivity|].
  cbn. destruct (is_log e) eqn:L; cbn.
  - rewrite Forall_cons, IH. destruct e; try discriminate.
    destruct who; cbn; tauto.
  - rewrite !Forall_cons, IH. reflexivity.
Qed.

Lemma effects_of_attributed (a : action) (w : world) :
  Forall attributed (map (pair (actor a)) (effects_of a w)).
Proof.
  destruct a as [req now env|j env|current_time env now]; cbn [actor effects_of].
  - unfold handler_effects. destruct (fst (webhook_parse req)); try constructor.
    + exact I.
    + destruct (_ || _); repeat constructor.
  - destruct (threads w !! j) as [t|]; [|constructor].
    unfold step_effects. destruct (dd_pc t) as [|k|k| |]; repeat constructor.
    destruct (k <? delay_seconds)%nat; repeat constructor.
  - destruct (seconds 7200 <=? current_time - last_event_time w); repeat constructor.
Qed.

(** X6: in every schedule each thread keeps to its own business.  A
    handler never sends the disable command, never clears the event and
    never sleeps; the watchdog and the delayed-disable threads never send
    the enable command and never set the event; a delayed-disable thread
    never assigns [last_event_time], so a disable it makes does not put
    off the watchdog; the watchdog never reads or writes the event. *)
Theorem threads_keep_to_their_business (acts : list action) (w : world) :
  Forall attributed (trace w) ->
  Forall attributed (trace (run acts w)) /\ enable_command <> disable_command.
Proof.
  intros H. split; [|discriminate].
  revert w H. induction acts as [|a acts IH]; intros w H; [exact H|].
  rewrite run_cons. apply IH.
  apply attributed_side_effects. rewrite exec_side_effects.
  apply Forall_app. split; [now apply attributed_side_effects|].
  apply effects_of_attributed.
Qed.

(** What a request does to the list of threads. *)
Lemma webhook_threads_exact (req : request) (now : Z) (env : ssh_env) (w : world) :
  length (threads (snd (webhook req now env w))) =
  (length (threads w) + if scheduling req then 1 else 0)%nat.
Proof.
  unfold webhook, scheduling.
  destruct (webhook_parse req) as [[status body|e|event n] logged]; cbn [fst snd];
    try (cbn; lia).
  unfold webhook_dispatch.
  destruct (String.eqb event "playback_start" || String.eqb event "playback_resume");
    cbn [negb andb].
  - destruct (ssh_call enable_command env) as [[] ?]; cbn; lia.
  - destruct (String.eqb event "playback_pause"); cbn [negb andb orb].
    + destruct (Z.ltb_spec 1 n), (Z.leb_spec n 1); try lia;
        cbn; rewrite ?length_app; cbn; lia.
    + destruct (String.eqb event "playback_stop"); cbn [negb andb orb].
      * destruct (Z.leb_spec 1 n), (Z.ltb_spec n 1); try lia;
          cbn; rewrite ?length_app; cbn; lia.
      * cbn. lia.
Qed.

Lemma exec_threads_length (a : action) (w : world) :
  length (threads (exec w a)) = (length (threads w) + spawned [a])%nat.
Proof.
  destruct a as [req now env|j env|current_time env now]; cbn [exec].
  - rewrite webhook_threads_exact. unfold spawned. cbn.
    destruct (scheduling req); reflexivity.
  - unfold step_task, spawned. cbn. destruct (threads w !! j) as [t|]; [|lia].
    destruct (delayed_disable (resume_event w) env t) as [[t' signal] es].
    cbn [threads set_threads]. rewrite length_insert. lia.
  - destruct (check_inactivity_frame current_time env now w) as [-> _].
    unfold spawned. cbn. lia.
Qed.

(** A step changes nothing of a thread but where it stands. *)
Lemma exec_keeps_arguments (a : action) (w : world) (i : nat) (t : dd_task) :
  threads w !! i = Some t ->
  exists t',
    threads (exec w a) !! i = Some t' /\
    dd_event t' = dd_event t /\ dd_wan_streams t' = dd_wan_streams t.
Proof.
  intros H. destruct a as [req now env|j env|current_time env now]; cbn [exec].
  - exists t. rewrite (webhook_lookup req now env w i t H). auto.
  - unfold step_task. destruct (decide (j = i)) as [->|N].
    + rewrite H.
      destruct (delayed_disable_next (resume_event w) env t) as (_ & E & W & _).
      destruct (delayed_disable (resume_event w) env t) as [[t' signal] es].
      exists t'. cbn [fst] in E, W. cbn [threads set_threads]. split; [|auto].
      apply list_lookup_insert_eq. now apply lookup_lt_Some in H.
    + exists t. split; [|auto].
      destruct (threads w !! j) as [tj|]; [|assumption].
      destruct (delayed_disable (resume_event w) env tj) as [[t' signal] es].
      cbn [threads set_threads]. now rewrite list_lookup_insert_ne.
  - exists t. destruct (check_inactivity_frame current_time env now w) as [-> _]. auto.
Qed.

Lemma spawned_cons (a : action) (acts : list action) :
  spawned (a :: acts) = (spawned [a] + spawned acts)%nat.
Proof. unfold spawned. cbn. destruct a as [req ? ?| |]; [destruct (scheduling req)| |]; reflexivity. Qed.

(** X7: threads are started and never removed.  After any schedule the
    list of threads is longer by one for each pause event with at most one
    stream and each stop event with none that was handled, and by nothing
    else; a thread there before is still there, under the same number,
    with the event name and stream count it was started with. *)
Theorem threads_are_never_removed (acts : list action) (w : world) :
  length (threads (run acts w)) = (length (threads w) + spawned acts)%nat /\
  forall i t,
    threads w !! i = Some t ->
    exists t',
      threads (run acts w) !! i = Some t' /\
      dd_event t' = dd_event t /\ dd_wan_streams t' = dd_wan_streams t.
Proof.
  revert w. induction acts as [|a acts IH]; intros w.
  - split; [cbn; unfold spawned; cbn; lia | eauto].
  - rewrite run_cons, spawned_cons. destruct (IH (exec w a)) as [L K]. split.
    + rewrite L, exec_threads_length. lia.
    + intros i t H. destruct (exec_keeps_arguments a w i t H) as (t1 & H1 & E1 & W1).
      destruct (K i t1 H1) as (t' & H' & E' & W'). exists t'.
      split; [exact H'|]. split; congruence.
Qed.

Lemma committed_step (i d r : nat) (a : action) (w : world) :
  committed i d r w ->
  committed i d (r - if decide (actor a = Task i) then 1 else 0) (exec w a).
Proof.
  intros (t & L & P).
  destruct (exec_lookup a w i t L) as (t' & L' & _ & P').
  pose proof (exec_disable_calls a w (Task i)) as D.
  exists t'. split; [exact L'|]. rewrite P', D. clear P' D L'.
  destruct (decide (actor a = Task i)) as [E|N].
  - destruct a as [req now env|j env|current_time env now]; try discriminate.
    injection E as ->. cbn [effects_of actor]. rewrite L, disable_calls_map_own.
    destruct P as [[-> D]|(A & R & D)]; [left; cbn; split; [reflexivity|lia]|].
    destruct (dd_pc t) as [|k|k| |]; try discriminate;
      cbn [past_last_test polls_in next_pc step_effects] in A, R |- *.
    + apply Nat.leb_le in A.
      destruct (Nat.ltb_spec k delay_seconds); [lia|].
      left. split; [reflexivity|]. unfold commands. cbn [omap option_bind list_omap].
      rewrite String.eqb_refl. cbn. lia.
    + right. split; [|split; [lia | cbn; lia]].
      apply Nat.leb_le in A. apply Nat.leb_le. lia.
  - rewrite (disable_calls_map_other _ _ _ N), Nat.sub_0_r, Nat.add_0_r. exact P.
Qed.

Lemma committed_run (i d : nat) (acts : list action) :
  forall (r : nat) (w : world),
    committed i d r w -> committed i d (r - steps_of i acts) (run acts w).
Proof.
  induction acts as [|a acts IH]; intros r w C.
  - cbn. now rewrite Nat.sub_0_r.
  - rewrite run_cons, steps_of_cons.
    replace (r - ((if decide (actor a = Task i) then 1 else 0) + steps_of i acts))%nat
      with (r - (if decide (actor a = Task i) then 1 else 0) - steps_of i acts)%nat
      by lia.
    apply IH, committed_step, C.
Qed.

(** X8: a thread that has made its 120th loop test is past cancelling.
    During the last second of its wait nothing stops it: whatever requests
    are handled meanwhile, a resume event among them, its next two steps
    send the disable command. *)
Theorem last_second_cannot_be_cancelled (acts : list action) (w : world)
    (i : nat) (t : dd_task) :
  threads w !! i = Some t ->
  past_last_test (dd_pc t) = true ->
  (2 <= steps_of i acts)%nat ->
  exists t',
    threads (run acts w) !! i = Some t' /\ dd_pc t' = Expired /\
    disable_calls (Task i) (trace (run acts w)) =
      S (disable_calls (Task i) (trace w)).
Proof.
  intros L A S.
  assert (C : committed i (disable_calls (Task i) (trace w)) 2 w).
  { exists t. split; [exact L|]. right. split; [exact A|]. split; [|reflexivity].
    destruct (dd_pc t); cbn; lia. }
  destruct (committed_run i _ acts 2 w C) as (t' & L' & [[P D]|(A' & R & _)]).
  - exists t'. auto.
  - destruct (dd_pc t'); try discriminate; cbn in R; lia.
Qed.

(** X9: a watchdog turn that runs after a request has been handled, no
    earlier turn being still under way, counts from that request when the
    handler acted on it, also when it ignored it for an unknown event name
    or for active streams, and from the time stored before when the handler
    refused the request or ended in an exception: the turn disables the
    policy exactly when 7200 seconds have passed since then. *)
Theorem only_accepted_requests_feed_the_watchdog (req : request) (now : Z)
    (env env' : ssh_env) (current_time now' : Z) (w : world) :
  let since :=
    match fst (webhook_parse req) with
    | Accepted _ _ => now
    | _ => last_event_time w
    end in
  let handled := snd (webhook req now env w) in
  disable_calls Watchdog (trace (check_inactivity current_time env' now' handled)) =
  (disable_calls Watchdog (trace w) +
   if (seconds 7200 <=? current_time - since)%Z then 1 else 0)%nat.
Proof.
  intros since handled. subst since handled.
  rewrite check_inactivity_disable_calls.
  assert (D : disable_calls Watchdog (trace (snd (webhook req now env w))) =
              disable_calls Watchdog (trace w)).
  { change (snd (webhook req now env w)) with (exec w (Request req now env)).
    rewrite exec_disable_calls, disable_calls_map_other; [lia | discriminate]. }
  assert (C : last_event_time (snd (webhook req now env w)) =
              match fst (webhook_parse req) with
              | Accepted _ _ => now
              | _ => last_event_time w
              end).
  { unfold webhook.
    destruct (webhook_parse req) as [[status body|e|event n] logged]; cbn [fst snd];
      try reflexivity.
    apply webhook_dispatch_clock. }
  rewrite C, D. reflexivity.
Qed.

End Properties.

(** * The handler in a started process *)

Section Started.
Context `{rt : Runtime}.

(** X3: in a process that has started, the handler answers 401 exactly
    when the request's token header is absent or is not, character for
    character, the value of [WEBHOOK_TOKEN]. *)
Theorem started_token_is_exact (environ : list (string * string)) (s : settings)
    (req : request) (now : Z) (env : ssh_env) (w : world) :
  fst (startup environ) = Ok s ->
  fst (fst (webhook (rt := runtime_of s) req now env w)) = 401 <->
  header_token req <> Some (token s).
Proof.
  intros H. pose proof (startup_token_not_empty environ s H) as NE.
  rewrite (webhook_status_401 (rt := runtime_of s)).
  apply (unauthorized_iff (rt := runtime_of s)). exact NE.
Qed.

End Started.

(** * The program run on concrete requests *)

Section Runs.
#[local] Existing Instance test_runtime.

Example pause_at_one_schedules :
  threads (snd (webhook (pause_request 1) 50 session_ok (boot 0))) =
  [new_thread "playback_pause" 1].
Proof. reflexivity. Qed.

Example pause_at_two_is_ignored :
  webhook (pause_request 2) 50 session_ok (boot 0) =
  ((200, MessageBody (IgnoredActiveStreams "playback_pause" 2)),
   {| last_event_time := 50; resume_event := false; threads := [];
      trace := trace (snd (webhook (pause_request 2) 50 session_ok (boot 0))) |}).
Proof. reflexivity. Qed.

Example stop_at_one_is_ignored :
  threads (snd (webhook (stop_request 1) 50 session_ok (boot 0))) = [] /\
  fst (webhook (stop_request 1) 50 session_ok (boot 0)) =
    (200, MessageBody (IgnoredActiveStreams "playback_stop" 1)).
Proof. split; reflexivity. Qed.

Example stop_at_zero_schedules :
  threads (snd (webhook (stop_request 0) 50 session_ok (boot 0))) =
  [new_thread "playback_stop" 0].
Proof. reflexivity. Qed.

(** A pause event with one stream starts the thread. *)
Lemma pause_stop_thresholds_witness :
  threads (snd (webhook (pause_request 1) 50 session_ok (boot 0))) =
    [new_thread "playback_pause" 1] /\
  fst (webhook (pause_request 1) 50 session_ok (boot 0)) =
    (200, MessageBody (ScheduledForDisable "playback_pause")).
Proof.
  refine (proj1 (proj1 (pause_stop_thresholds (pause_request 1) "playback_pause" 1
            _ 50 session_ok (boot 0) eq_refl) eq_refl) _).
  lia.
Defined.

(** A resume event with the device unreachable: the event is set and the
    caller is told of the failure. *)
Lemma enable_runs_once_witness :
  resume_event (snd (webhook resume_request 50 session_down one_waiting)) = true /\
  fst (webhook resume_request 50 session_down one_waiting) =
    (500, ErrorBody "timed out").
Proof.
  pose proof (enable_runs_once resume_request "playback_resume" 0 _ 50
                session_down one_waiting eq_refl (or_intror eq_refl)) as H.
  split; [exact (proj1 H) | exact (proj1 (proj2 (proj2 H)))].
Defined.

(** An event name the handler does not know. *)
Lemma dispatch_frame_witness :
  last_event_time
    (snd (webhook (post [("event", JStr "library_new")]) 50 session_ok one_waiting)) = 50 /\
  threads
    (snd (webhook (post [("event", JStr "library_new")]) 50 session_ok one_waiting)) =
    threads one_waiting.
Proof.
  pose proof (dispatch_frame (post [("event", JStr "library_new")]) "library_new" 0
                _ 50 session_ok one_waiting eq_refl) as H.
  split; [exact (proj1 H)|].
  refine (proj1 (proj2 (proj2 (proj2 (proj2 (proj2 H))) _ _ _))); intuition discriminate.
Defined.

(** The waiting thread of [one_waiting], tested after a resume event. *)
Lemma enable_cancels_waiting_threads_witness :
  disable_calls (Task 0)
    (trace (run [Step 0 session_ok; Tick 400 session_ok 400; Step 0 session_ok]
              (snd (webhook resume_request 50 session_ok one_waiting)))) = O /\
  disable_calls (Task 0)
    (trace (run (repeat (Step 0 session_ok) 300)
              (run [Step 0 session_ok; Tick 400 session_ok 400; Step 0 session_ok]
                 (snd (webhook resume_request 50 session_ok one_waiting))))) = O.
Proof.
  pose proof (enable_cancels_waiting_threads resume_request 50 session_ok one_waiting
                0 _ [Step 0 session_ok; Tick 400 session_ok 400; Step 0 session_ok]
                (repeat (Step 0 session_ok) 300)
                eq_refl eq_refl eq_refl eq_refl) as H.
  split; [exact (proj1 H)|].
  refine (proj2 (proj2 (proj2 H) _)). vm_compute. lia.
Defined.

(** C1 fails on the code: the thread of [one_waiting] is waiting when the
    resume event is handled, a pause event then starts a second thread
    whose entry clears [resume_event] before the first thread tests it, and
    the first thread goes on to line 128, "no resume occurred within 2
    minutes", and sends the disable command, although line 175 set the
    event to cancel "any delayed disable". *)
Lemma later_thread_revokes_cancellation :
  let w1 := snd (webhook resume_request 50 session_ok one_waiting) in
  let acts := Request (pause_request 0) 60 session_ok :: Step 1 session_ok ::
              repeat (Step 0 session_ok) 231 in
  resume_event w1 = true /\
  (dd_pc <$> threads w1 !! O) = Some (AtLoop 5) /\
  disable_calls (Task 0) (trace w1) = O /\
  sets (trace (run acts w1)) = sets (trace w1) /\
  (dd_pc <$> threads (run acts w1) !! O) = Some Expired /\
  disable_calls (Task 0) (trace (run acts w1)) = 1%nat.
Proof. vm_compute. repeat split. Qed.

(** The same loss without a second thread: a thread that has not yet run
    its entry when the resume event is handled clears the event itself and
    disables the policy. *)
Example own_clear_loses_resume :
  let w := run [Request (pause_request 0) 40 session_ok;
                Request resume_request 50 session_ok] (boot 0) in
  resume_event w = true /\
  (dd_pc <$> threads w !! O) = Some AtStart /\
  (dd_pc <$> threads (run (repeat (Step 0 session_ok) 242) w) !! O) = Some Expired /\
  disable_calls (Task 0) (trace (run (repeat (Step 0 session_ok) 242) w)) = 1%nat.
Proof. vm_compute. repeat split. Qed.

(** C4 fails on the code: a start event whose [wan_streams] is [1e999]
    carries the token and passes the test of line 159, [int] raises
    OverflowError at line 166, past the [except] clause, and the handler
    ends without setting the event and without an enable call. *)
Lemma infinite_wan_streams_skips_enable :
  let req := post [("event", JStr "playback_start");
                   ("wan_streams", JFloat (FInf false))] in
  unauthorized (header_token req) = false /\
  invalid_request (get_json req) = Ok false /\
  fst (webhook req 50 session_ok one_waiting) = (500, Unhandled OverflowError) /\
  resume_event (snd (webhook req 50 session_ok one_waiting)) = false /\
  side_effects (trace (snd (webhook req 50 session_ok one_waiting))) = [].
Proof. vm_compute. repeat split. Qed.

(** C7 fails on the code: for the same reason a request with an unknown
    event and [wan_streams] at [1e999] passes line 159 and never reaches the
    assignment of line 171; [last_event_time] stays as it was. *)
Lemma infinite_wan_streams_skips_clock :
  let req := post [("event", JStr "library_new");
                   ("wan_streams", JFloat (FInf false))] in
  unauthorized (header_token req) = false /\
  invalid_request (get_json req) = Ok false /\
  fst (webhook req 50 session_ok (boot 0)) = (500, Unhandled OverflowError) /\
  last_event_time (snd (webhook req 50 session_ok (boot 0))) = 0 /\
  stored_times (by_thread Handler
    (trace (snd (webhook req 50 session_ok (boot 0))))) = [].
Proof. vm_compute. repeat split. Qed.

(** C9 fails on the code: [1e999] is a JSON number that parses to the
    float infinity, [int] of it raises OverflowError, the [except] clause
    of line 167 does not catch that, and the request is answered with an
    error instead of being handled with a count of 0. *)
Lemma infinite_wan_streams_unhandled :
  let req := post [("event", JStr "playback_pause");
                   ("wan_streams", JFloat (FInf false))] in
  py_int (JFloat (FInf false)) = Raise OverflowError /\
  fst (webhook req 50 session_ok (boot 0)) = (500, Unhandled OverflowError) /\
  threads (snd (webhook req 50 session_ok (boot 0))) = [] /\
  last_event_time (snd (webhook req 50 session_ok (boot 0))) = 0.
Proof. vm_compute. repeat split. Qed.

(** A wrong token, and a body without the key [event]. *)
Example wrong_token_is_rejected :
  webhook {| header_token := Some "guess"; header_forwarded_for := None;
             get_json := JObj [("event", JStr "playback_stop")] |}
    50 session_ok one_waiting =
  ((401, ErrorBody "Unauthorized"),
   emit Handler [Log WARNING (MsgUnauthorized "/webhook/default")] one_waiting).
Proof. reflexivity. Qed.

Example missing_event_is_rejected :
  fst (webhook (post [("wan_streams", JInt 0)]) 50 session_ok one_waiting) =
    (400, ErrorBody "Invalid request") /\
  side_effects (trace (snd (webhook (post [("wan_streams", JInt 0)]) 50
                              session_ok one_waiting))) = [].
Proof. split; reflexivity. Qed.

(** A watchdog turn one hour after the last event. *)
Example quiet_tick_after_one_hour :
  side_effects (trace (check_inactivity (seconds 3600) session_ok (seconds 3601)
                         (boot 0))) = [(Watchdog, Sleep 300)] /\
  last_event_time (check_inactivity (seconds 3600) session_ok (seconds 3601)
                     (boot 0)) = 0.
Proof. split; reflexivity. Qed.

(** The values the [except] clause does catch. *)
Example unparsable_wan_streams_count_as_zero :
  fst (webhook_parse (post [("event", JStr "playback_stop");
                            ("wan_streams", JStr "two")])) =
    Accepted "playback_stop" 0 /\
  fst (webhook_parse (post [("event", JStr "playback_stop");
                            ("wan_streams", JNull)])) =
    Accepted "playback_stop" 0 /\
  fst (webhook_parse (post [("event", JStr "playback_stop")])) =
    Accepted "playback_stop" 0 /\
  fst (webhook_parse (post [("event", JStr "playback_stop");
                            ("wan_streams", JFloat FNaN)])) =
    Accepted "playback_stop" 0.
Proof. vm_compute. repeat split. Qed.

(** A thread whose fourth loop test finds the event set. *)
Example cancelled_at_fourth_test :
  dd_steps 242 (fun k => Nat.eqb k 3) session_ok (new_thread "playback_stop" 0) =
  (at_pc (new_thread "playback_stop" 0) Cancelled,
   cancelled_run "playback_stop" 0 3).
Proof. vm_compute. reflexivity. Qed.

(** Two hours of silence, twice, with the device unreachable. *)
Example two_silent_periods :
  silent_from 0 [Tick (seconds 7200) session_down (seconds 7201);
                 Tick (seconds 7500) session_down (seconds 7500);
                 Tick (seconds 14401) session_down (seconds 14402)] /\
  stored_times (by_thread Watchdog
    (trace (run [Tick (seconds 7200) session_down (seconds 7201);
                 Tick (seconds 7500) session_down (seconds 7500);
                 Tick (seconds 14401) session_down (seconds 14402)] (boot 0)))) =
  [seconds 7201; seconds 14402].
Proof. vm_compute. intuition discriminate. Qed.

(** A pause event right after a resume event: the new thread clears the
    event and, left alone, disables the policy. *)
Example pause_after_resume_disables :
  let w := snd (webhook (pause_request 0) 60 session_ok
             (snd (webhook resume_request 50 session_ok (boot 0)))) in
  resume_event w = true /\
  disable_calls (Task 0) (trace (run (repeat (Step 0 session_ok) 242) w)) = 1%nat.
Proof. vm_compute. split; reflexivity. Qed.

(** An error line about a pause event comes out in the colour of pause
    events, not in red. *)
Example error_line_in_event_colour :
  format "ERROR"
    "2024-05-01 10:00:00,000 - ERROR - Delayed disable for playback_pause failed: timed out" =
  esc "[95m" ++
  "2024-05-01 10:00:00,000 - ERROR - Delayed disable for playback_pause failed: timed out" ++
  esc "[0m".
Proof. reflexivity. Qed.

(** A line that names two events takes the colour of the one that comes
    first in [EVENT_COLORS], here start, not of the one it names first. *)
Example two_events_in_one_line :
  format "INFO" "playback_stop then playback_start" =
  esc "[38;5;117m" ++ "playback_stop then playback_start" ++ esc "[0m".
Proof. reflexivity. Qed.

Example plain_error_line_in_red :
  format "ERROR" "2024-05-01 10:00:00,000 - ERROR - SSH execution failed: timed out" =
  esc "[91m" ++ "2024-05-01 10:00:00,000 - ERROR - SSH execution failed: timed out" ++
  esc "[0m".
Proof. reflexivity. Qed.

Example startup_with_token_only :
  startup [("WEBHOOK_TOKEN", "s3cret")] = (Ok token_only, [(WARNING, UuidNotProvided)]).
Proof. reflexivity. Qed.

Example startup_without_token :
  startup [("WEBHOOK_UUID", "6f1c"); ("WEBHOOK_TOKEN", "")] =
  (Raise ValueError, [(ERROR, TokenRequired)]).
Proof. reflexivity. Qed.

Example startup_with_bad_port :
  fst (startup [("WEBHOOK_TOKEN", "s3cret"); ("FORTIGATE_PORT", "ssh")]) =
  Raise ValueError.
Proof. reflexivity. Qed.

(** A token that differs in case only is refused. *)
Lemma started_token_is_exact_witness :
  fst (fst (webhook (rt := runtime_of token_only)
              {| header_token := Some "S3cret"; header_forwarded_for := None;
                 get_json := JObj [("event", JStr "playback_start")] |}
              50 session_ok (boot 0))) = 401.
Proof.
  refine (proj2 (started_token_is_exact [("WEBHOOK_TOKEN", "s3cret")] token_only
                   _ 50 session_ok (boot 0) eq_refl) _).
  discriminate.
Defined.

(** A day in the life of the process. *)
Lemma threads_keep_to_their_business_witness :
  Forall attributed
    (trace (run [Request (pause_request 0) 10 session_ok; Step 0 session_ok;
                 Request resume_request 20 session_down; Step 0 session_ok;
                 Tick (seconds 7300) session_ok (seconds 7301)] (boot 0))).
Proof.
  refine (proj1 (threads_keep_to_their_business _ (boot 0) _)).
  constructor.
Defined.

(** A resume event in the last second of a wait sets the event and is
    answered, and the policy is disabled all the same. *)
Lemma last_second_cannot_be_cancelled_witness :
  resume_event
    (run [Request resume_request 50 session_ok; Step 0 session_ok; Step 0 session_ok]
       last_second) = true /\
  disable_calls (Task 0)
    (trace (run [Request resume_request 50 session_ok; Step 0 session_ok;
                 Step 0 session_ok] last_second)) = 1%nat.
Proof.
  split; [reflexivity|].
  destruct (last_second_cannot_be_cancelled
              [Request resume_request 50 session_ok; Step 0 session_ok; Step 0 session_ok]
              last_second 0 _ eq_refl eq_refl) as (t' & _ & _ & D).
  - vm_compute. lia.
  - exact D.
Defined.

(** An unknown event one hour in puts the watchdog off; a request with a
    wrong token does not. *)
Example unknown_event_feeds_the_watchdog :
  disable_calls Watchdog
    (trace (check_inactivity (seconds 7200) session_ok (seconds 7201)
              (snd (webhook (post [("event", JStr "library_new")]) (seconds 3600)
                      session_ok (boot 0))))) = O /\
  disable_calls Watchdog
    (trace (check_inactivity (seconds 7200) session_ok (seconds 7201)
              (snd (webhook {| header_token := None; header_forwarded_for := None;
                               get_json := JObj [("event", JStr "playback_start")] |}
                      (seconds 3600) session_ok (boot 0))))) = 1%nat.
Proof. vm_compute. split; reflexivity. Qed.

End Runs.
